(** * nextage_ros_bridge: [base_hands.py]

    A shallow embedding of the class [BaseHands] of
    [nextage_ros_bridge/src/nextage_ros_bridge/base_hands.py] and the
    properties of its digital-I/O writer, of [init_dio], of the constructor
    and of the gesture stubs.

    Python integers are [Z], Python lists of integers are [list Z]; item
    assignment follows Python (negative indices count from the end, anything
    else out of range raises [IndexError]).  Logging, printing and the call
    of the robot's [writeDigitalOutputWithMask] are effects on an explicit
    world, threaded by a small state-and-exception monad. *)

From stdpp Require Import base numbers list strings.
From Stdlib Require Import ZArith Lia.

Local Open Scope Z_scope.

(** ** The fragment of Python the module relies on *)

Module Py.

Inductive exn : Type :=
| AttributeError
| IndexError
| NotImplementedError (msg : string)
| OtherError (name : string).

Inductive result (A : Type) : Type :=
| Return (a : A)
| Raise (e : exn).
Arguments Return {A} a.
Arguments Raise {A} e.

#[global] Instance exn_eq_dec : EqDecision exn.
Proof. solve_decision. Defined.

(** [range(lo, hi)] *)
Definition range (lo hi : Z) : list Z := seqZ lo (hi - lo).

(** [l[k] = v]: an index in [0, len) is used as it is, one in [-len, 0)
    counts from the end, any other raises [IndexError]. *)
Definition setitem (l : list Z) (k : Z) (v : Z) : result (list Z) :=
  let n := Z.of_nat (length l) in
  if decide (0 <= k < n) then Return (<[Z.to_nat k := v]> l)
  else if decide (- n <= k < 0) then Return (<[Z.to_nat (k + n) := v]> l)
  else Raise IndexError.

(** [del l[-k:]] for a positive [k]: drops the last [k] items. *)
Definition del_last (k : nat) (l : list Z) : list Z := take (length l - k)%nat l.

(** List objects live in a store and are named by references, so that two
    variables bound to one list see each other's [append]. *)
Definition ref : Type := nat.
Definition store : Type := list (list Z).

Definition new_list (h : store) : ref * store := (length h, h ++ [[]]).
Definition append (h : store) (r : ref) (x : Z) : store := alter (λ l, l ++ [x]) r h.
Definition deref (h : store) (r : ref) : list Z := default [] (h !! r).

End Py.
Import Py.

(** ** The world outside the class: [rospy] logging, standard output, and the
    history of register writes received by the robot *)

Definition nl : string := String (Ascii.ascii_of_nat 10) EmptyString.
Definition tab : string := String (Ascii.ascii_of_nat 9) EmptyString.

Inductive severity : Type := DEBUG | ERROR | STDOUT.

Inductive diagnostic : Type :=
| logdebug (fmt : string) (arg : list Z)
| logerr (msg : string)
| print (fmt : string) (args : list (list Z)).

Definition severity_of (d : diagnostic) : severity :=
  match d with
  | logdebug _ _ => DEBUG
  | logerr _ => ERROR
  | print _ _ => STDOUT
  end.

Definition is_error (d : diagnostic) : bool :=
  match severity_of d with ERROR => true | _ => false end.

Record World : Type := mkWorld {
  diagnostics : list diagnostic;          (* oldest first *)
  writes : list (list Z * list Z)         (* (dout, mask) pairs the robot received, oldest first *)
}.

(** What is passed as [parent]: any Python object, seen through its truth
    value and its [writeDigitalOutputWithMask] attribute.  The attribute may
    be absent; when present, its answer may depend on everything the robot
    was sent before. *)
Record HrpsysConfigurator : Type := mkParent {
  truth : bool;
  writeDigitalOutputWithMask :
    option (list (list Z * list Z) → list Z → list Z → result bool)
}.

(** Python's [None]. *)
Definition PyNone : HrpsysConfigurator :=
  {| truth := false; writeDigitalOutputWithMask := None |}.

(** ** Computations: state passing over [World], with exceptions *)

Definition M (A : Type) : Type := World → result A * World.

#[global] Instance M_ret : MRet M := λ A a w, (Return a, w).
#[global] Instance M_bind : MBind M := λ A B f m w,
  match m w with
  | (Return a, w') => f a w'
  | (Raise e, w') => (Raise e, w')
  end.

Definition raise {A} (e : exn) : M A := λ w, (Raise e, w).

Definition lift {A} (r : result A) : M A := λ w, (r, w).

Definition emit (d : diagnostic) : M unit := λ w,
  (Return tt, {| diagnostics := diagnostics w ++ [d]; writes := writes w |}).

(** [try: body  except AttributeError: handler] *)
Definition try_except_AttributeError {A} (body handler : M A) : M A := λ w,
  match body w with
  | (Raise AttributeError, w') => handler w'
  | other => other
  end.

(** ** class BaseHands *)

Module BaseHands.

Definition HAND_L : string := "1".
Definition HAND_R : string := "2".

Definition _DIO_ASSIGN_ON : Z := 1.
Definition _DIO_ASSIGN_OFF : Z := 0.
Definition _DIO_MASK : Z := 0.

Definition DIO_17 : Z := 17.
Definition DIO_18 : Z := 18.
Definition DIO_19 : Z := 19.
Definition DIO_20 : Z := 20.
Definition DIO_21 : Z := 21.
Definition DIO_22 : Z := 22.
Definition DIO_23 : Z := 23.
Definition DIO_24 : Z := 24.
Definition DIO_25 : Z := 25.
Definition DIO_26 : Z := 26.
Definition DIO_27 : Z := 27.
Definition DIO_28 : Z := 28.

Definition _MSG_ERR_NOTIMPLEMENTED : string :=
  "The method is not implemented in the derived class".

(** An instance: its only attribute is [_parent], which exists once
    [__init__] has assigned it. *)
Record t : Type := mkHands { _parent : option HrpsysConfigurator }.

(** The instance [__init__] receives: no attribute set yet. *)
Definition blank : t := {| _parent := None |}.

(** [def __init__(self, parent)] *)
Definition __init__ (self : t) (parent : HrpsysConfigurator) : M t :=
  if negb (truth parent) then
    mret self
  else
    mret {| _parent := Some parent |}.

(** [BaseHands(parent)] *)
Definition new (parent : HrpsysConfigurator) : M t := __init__ blank parent.

(** [for i in indices: arr[i - 1] = v] *)
Fixpoint assign_each (arr : list Z) (indices : list Z) (v : Z) : result (list Z) :=
  match indices with
  | [] => Return arr
  | i :: rest =>
      match setitem arr (i - 1) v with
      | Return arr' => assign_each arr' rest v
      | Raise e => Raise e
      end
  end.

(** The legend printed under the two arrays. *)
Definition print_index : list Z :=
  let print_index :=
    foldl (λ acc i, let n := i + 1 in
                    let n := if decide (10 = n) then 0 else n in
                    acc ++ [n]) [] (range 0 10) in
  let print_index := print_index ++ print_index in
  let print_index := print_index ++ print_index in
  del_last 8 print_index.

(** [self._parent.writeDigitalOutputWithMask(dout, mask)]: both attribute
    lookups can raise [AttributeError]; the call itself is recorded in the
    world and answers as the robot decides. *)
Definition call_writeDigitalOutputWithMask (self : t) (dout mask : list Z) : M bool := λ w,
  match _parent self with
  | None => (Raise AttributeError, w)
  | Some parent =>
      match writeDigitalOutputWithMask parent with
      | None => (Raise AttributeError, w)
      | Some method =>
          (method (writes w) dout mask,
           {| diagnostics := diagnostics w; writes := writes w ++ [(dout, mask)] |})
      end
  end.

(** Lines 125-147: the two 32-element arrays. *)
Definition dio_arrays (digitalout_indices dio_assignments : list Z) (padding : Z)
  : M (list Z * list Z) :=
  let dout := foldl (λ dout _, dout ++ [padding]) [] (range 0 32) in
  let mask := foldl (λ mask _, mask ++ [_DIO_MASK]) [] (range 0 32) in
  let signal_alternate :=
    if decide (padding = _DIO_ASSIGN_ON) then _DIO_ASSIGN_OFF else _DIO_ASSIGN_ON in
  emit (logdebug "digitalout_indices={}" digitalout_indices) ;;
  dout ← lift (assign_each dout digitalout_indices signal_alternate) ;
  mask ← lift (assign_each mask dio_assignments 1) ;
  mret (dout, mask).

(** [def _dio_writer(self, digitalout_indices, dio_assignments, padding)] *)
Definition _dio_writer (self : t) (digitalout_indices dio_assignments : list Z)
    (padding : Z) : M bool :=
  '(dout, mask) ← dio_arrays digitalout_indices dio_assignments padding ;
  emit (print ("dout, mask:" +:+ nl +:+ "{}," +:+ nl +:+ "{}" +:+ nl +:+ "{}")
              [dout; mask; print_index]) ;;
  let is_written_dout := false in
  is_written_dout ←
    try_except_AttributeError
      (call_writeDigitalOutputWithMask self dout mask)
      (emit (logerr ("AttributeError from robot." +:+ nl +:+ "TODO: Needs handled.")) ;;
       emit (logerr (tab +:+ ("Device was not found. Maybe you're" +:+ "on simulator?"))) ;;
       mret is_written_dout) ;
  mret is_written_dout.

(** [padding] defaults to [_DIO_ASSIGN_OFF]. *)
Definition _dio_writer_default (self : t) (digitalout_indices dio_assignments : list Z)
  : M bool :=
  _dio_writer self digitalout_indices dio_assignments _DIO_ASSIGN_OFF.

(** [def init_dio(self)].  [dout = mask = []] binds both names to ONE list
    object, so the [append]s through [mask] are seen through [dout]. *)
Definition init_dio_arguments : list Z * list Z :=
  let '(r, h) := new_list [] in
  let dout := r in
  let mask := r in
  let h := foldl (λ h i, append h mask i) h (range 16 32) in
  (deref h dout, deref h mask).

Definition init_dio (self : t) : M unit :=
  let '(dout, mask) := init_dio_arguments in
  _dio_writer self dout mask _DIO_ASSIGN_ON ;;
  mret tt.

(** Attribute lookup through [self] goes to the instance and to the classes
    that come before [BaseHands] before it reaches [BaseHands].  For the one
    attribute the hand commands read, [lookup] holds the binding that
    shadows the one of [BaseHands], if there is one, as the message text it
    gives an exception. *)
Record lookup : Type := mkLookup {
  shadowing_MSG_ERR_NOTIMPLEMENTED : option string
}.

(** [self._MSG_ERR_NOTIMPLEMENTED] *)
Definition self_MSG_ERR_NOTIMPLEMENTED (through : lookup) : string :=
  match shadowing_MSG_ERR_NOTIMPLEMENTED through with
  | Some text => text
  | None => _MSG_ERR_NOTIMPLEMENTED
  end.

(** The common hand commands.  Each body is the same [raise]; [through] is
    what lookup through [self] finds. *)
Definition airhand_l_drawin (through : lookup) (self : t) : M unit :=
  raise (NotImplementedError (self_MSG_ERR_NOTIMPLEMENTED through)).
Definition airhand_r_drawin (through : lookup) (self : t) : M unit :=
  raise (NotImplementedError (self_MSG_ERR_NOTIMPLEMENTED through)).
Definition airhand_l_keep (through : lookup) (self : t) : M unit :=
  raise (NotImplementedError (self_MSG_ERR_NOTIMPLEMENTED through)).
Definition airhand_r_keep (through : lookup) (self : t) : M unit :=
  raise (NotImplementedError (self_MSG_ERR_NOTIMPLEMENTED through)).
Definition airhand_l_release (through : lookup) (self : t) : M unit :=
  raise (NotImplementedError (self_MSG_ERR_NOTIMPLEMENTED through)).
Definition airhand_r_release (through : lookup) (self : t) : M unit :=
  raise (NotImplementedError (self_MSG_ERR_NOTIMPLEMENTED through)).
Definition gripper_l_close (through : lookup) (self : t) : M unit :=
  raise (NotImplementedError (self_MSG_ERR_NOTIMPLEMENTED through)).
Definition gripper_r_close (through : lookup) (self : t) : M unit :=
  raise (NotImplementedError (self_MSG_ERR_NOTIMPLEMENTED through)).
Definition gripper_l_open (through : lookup) (self : t) : M unit :=
  raise (NotImplementedError (self_MSG_ERR_NOTIMPLEMENTED through)).
Definition gripper_r_open (through : lookup) (self : t) : M unit :=
  raise (NotImplementedError (self_MSG_ERR_NOTIMPLEMENTED through)).
Definition handlight_r (through : lookup) (self : t) (is_on : bool) : M unit :=
  raise (NotImplementedError (self_MSG_ERR_NOTIMPLEMENTED through)).
Definition handlight_l (through : lookup) (self : t) (is_on : bool) : M unit :=
  raise (NotImplementedError (self_MSG_ERR_NOTIMPLEMENTED through)).
Definition handlight_both (through : lookup) (self : t) (is_on : bool) : M unit :=
  raise (NotImplementedError (self_MSG_ERR_NOTIMPLEMENTED through)).
Definition handtool_l_eject (through : lookup) (self : t) : M unit :=
  raise (NotImplementedError (self_MSG_ERR_NOTIMPLEMENTED through)).
Definition handtool_r_eject (through : lookup) (self : t) : M unit :=
  raise (NotImplementedError (self_MSG_ERR_NOTIMPLEMENTED through)).
Definition handtool_l_attach (through : lookup) (self : t) : M unit :=
  raise (NotImplementedError (self_MSG_ERR_NOTIMPLEMENTED through)).
Definition handtool_r_attach (through : lookup) (self : t) : M unit :=
  raise (NotImplementedError (self_MSG_ERR_NOTIMPLEMENTED through)).

End BaseHands.
Import BaseHands.

(** ** Derived classes and method resolution *)

(** A call of one of the hand commands: the method's name with its argument
    ([is_on] of the hand lights, [True] when omitted). *)
Inductive gesture : Type :=
| Airhand_l_drawin | Airhand_r_drawin
| Airhand_l_keep | Airhand_r_keep
| Airhand_l_release | Airhand_r_release
| Gripper_l_close | Gripper_r_close
| Gripper_l_open | Gripper_r_open
| Handlight_r (is_on : bool) | Handlight_l (is_on : bool) | Handlight_both (is_on : bool)
| Handtool_l_eject | Handtool_r_eject
| Handtool_l_attach | Handtool_r_attach.

(** The method [BaseHands] itself defines under each name, for an instance
    whose attributes are looked up [through]. *)
Definition base_method (g : gesture) (through : lookup) : BaseHands.t → M unit :=
  match g with
  | Airhand_l_drawin => airhand_l_drawin through
  | Airhand_r_drawin => airhand_r_drawin through
  | Airhand_l_keep => airhand_l_keep through
  | Airhand_r_keep => airhand_r_keep through
  | Airhand_l_release => airhand_l_release through
  | Airhand_r_release => airhand_r_release through
  | Gripper_l_close => gripper_l_close through
  | Gripper_r_close => gripper_r_close through
  | Gripper_l_open => gripper_l_open through
  | Gripper_r_open => gripper_r_open through
  | Handlight_r is_on => λ self, handlight_r through self is_on
  | Handlight_l is_on => λ self, handlight_l through self is_on
  | Handlight_both is_on => λ self, handlight_both through self is_on
  | Handtool_l_eject => handtool_l_eject through
  | Handtool_r_eject => handtool_r_eject through
  | Handtool_l_attach => handtool_l_attach through
  | Handtool_r_attach => handtool_r_attach through
  end.

(** A derived class, as far as the hand commands go: the hand commands it
    defines itself, and what attribute lookup finds for its instances
    before [BaseHands] is reached (a class attribute it rebinds, or one set
    on the instance).  A command it does not define resolves to the one of
    [BaseHands]. *)
Record derived_class : Type := mkClass {
  attributes : lookup;
  methods : gesture → option (BaseHands.t → M unit)
}.

Definition call_gesture (cls : derived_class) (g : gesture) (self : BaseHands.t) : M unit :=
  match methods cls g with
  | Some method => method self
  | None => base_method g (attributes cls) self
  end.

(** Two derived classes: one defines a single hand command, the other none
    but rebinds the message. *)
Definition closing_hands : derived_class :=
  {| attributes := {| shadowing_MSG_ERR_NOTIMPLEMENTED := None |};
     methods := λ g, match g with
                     | Gripper_l_close => Some (λ _, mret tt)
                     | _ => None
                     end |}.

Definition renamed_message_hands : derived_class :=
  {| attributes := {| shadowing_MSG_ERR_NOTIMPLEMENTED := Some "unsupported by this hand" |};
     methods := λ _, None |}.

(** The 1-based channels a 32-element array holds a given value at. *)
Definition in_register (i : Z) : Prop := 1 <= i <= 32.

Definition channel (arr : list Z) (i : Z) : option Z := arr !! Z.to_nat (i - 1).

Definition count_owned (mask : list Z) : nat := length (filter (λ x, x = 1) mask).

(** The spec's vocabulary for the values of the two arrays. *)
Definition ASSERT : Z := 1.
Definition DEASSERT : Z := 0.
Definition OWNED : Z := 1.
Definition NOT_OWNED : Z := 0.

(** The spec's "alternate": [ASSERT if fill == DEASSERT else DEASSERT]. *)
Definition alternate (fill : Z) : Z :=
  if decide (fill = DEASSERT) then ASSERT else DEASSERT.

(** The world after the debug line of [dio_arrays]. *)
Definition traced (digitalout_indices : list Z) (w : World) : World :=
  {| diagnostics := diagnostics w ++ [logdebug "digitalout_indices={}" digitalout_indices];
     writes := writes w |}.

(** The diagnostics emitted between two worlds. *)
Definition new_diagnostics (w w' : World) : list diagnostic :=
  drop (length (diagnostics w)) (diagnostics w').

Definition empty_world : World := {| diagnostics := []; writes := [] |}.

(** The line the writer prints before it calls the robot. *)
Definition printed (dout mask : list Z) : diagnostic :=
  print ("dout, mask:" +:+ nl +:+ "{}," +:+ nl +:+ "{}" +:+ nl +:+ "{}")
        [dout; mask; print_index].

(** The two error lines of the [except AttributeError] branch. *)
Definition device_not_found : list diagnostic :=
  [logerr ("AttributeError from robot." +:+ nl +:+ "TODO: Needs handled.");
   logerr (tab +:+ "Device was not found. Maybe you'reon simulator?")].

Definition errors (ds : list diagnostic) : list diagnostic :=
  filter (λ d, is_error d) ds.

(** The write capability is missing: the instance has no [_parent], the
    parent has no [writeDigitalOutputWithMask], or the call itself reports a
    missing attribute. *)
Definition capability_missing (self : BaseHands.t) (dout mask : list Z) (w : World) : Prop :=
  match _parent self with
  | None => True
  | Some parent =>
      match writeDigitalOutputWithMask parent with
      | None => True
      | Some method => method (writes w) dout mask = Raise AttributeError
      end
  end.

(** The robot has the capability and answers [False]. *)
Definition hardware_rejects (self : BaseHands.t) (dout mask : list Z) (w : World) : Prop :=
  ∃ parent method,
    _parent self = Some parent
    ∧ writeDigitalOutputWithMask parent = Some method
    ∧ method (writes w) dout mask = Return false.

(** Parents to run the class against: a robot that gives one fixed answer, a
    simulator without digital I/O, and a robot that accepts its first write
    only and reports a missing device from then on. *)
Definition stub_parent (answer : result bool) : HrpsysConfigurator :=
  {| truth := true; writeDigitalOutputWithMask := Some (λ _ _ _, answer) |}.

Definition simulator : HrpsysConfigurator :=
  {| truth := true; writeDigitalOutputWithMask := None |}.

Definition one_shot_parent : HrpsysConfigurator :=
  {| truth := true;
     writeDigitalOutputWithMask :=
       Some (λ history _ _, match history with
                            | [] => Return true
                            | _ => Raise AttributeError
                            end) |}.

Definition hands_of (parent : HrpsysConfigurator) : BaseHands.t :=
  {| _parent := Some parent |}.

(** The indices [arr[i - 1] = v] accepts on a 32-item list, and the channel
    each of them reaches: Python counts a negative [i - 1] from the end. *)
Definition accepted (i : Z) : Prop := -31 <= i <= 32.

Definition addressed (i : Z) : Z := if decide (1 <= i) then i else i + 32.

#[global] Instance accepted_dec (i : Z) : Decision (accepted i).
Proof. unfold accepted. apply _. Defined.

(** A parent that is falsy and yet has the write method. *)
Definition falsy_robot : HrpsysConfigurator :=
  {| truth := false; writeDigitalOutputWithMask := Some (λ _ _ _, Return true) |}.

(** The arrays [init_dio] has the writer build. *)
Definition init_dio_dout : list Z :=
  replicate 15 ASSERT ++ replicate 16 DEASSERT ++ [ASSERT].
Definition init_dio_mask : list Z :=
  replicate 15 NOT_OWNED ++ replicate 16 OWNED ++ [NOT_OWNED].

(** * Properties *)

(** ** Item assignment *)

Section assignment.
Implicit Types (arr : list Z) (i v : Z).

Lemma setitem_channel arr i v :
  1 <= i <= Z.of_nat (length arr) →
  setitem arr (i - 1) v = Return (<[Z.to_nat (i - 1) := v]> arr).
Proof.
  intros Hi. unfold setitem. rewrite decide_True by lia. reflexivity.
Qed.

Lemma setitem_length arr k v arr' :
  setitem arr k v = Return arr' → length arr' = length arr.
Proof.
  unfold setitem. intros H.
  repeat case_decide; simplify_eq; by rewrite length_insert.
Qed.

Lemma channel_insert arr i j v :
  1 <= i <= Z.of_nat (length arr) → 1 <= j →
  channel (<[Z.to_nat (i - 1) := v]> arr) j
  = if decide (j = i) then Some v else channel arr j.
Proof.
  intros Hi Hj. unfold channel. case_decide as E.
  - subst j. apply list_lookup_insert_eq. lia.
  - apply list_lookup_insert_ne. lia.
Qed.

Lemma assign_each_length indices : ∀ arr v arr',
  assign_each arr indices v = Return arr' → length arr' = length arr.
Proof.
  induction indices as [|i rest IH]; intros arr v arr' H; simpl in H.
  - by simplify_eq.
  - destruct (setitem arr (i - 1) v) as [arr1|e] eqn:E; [|done].
    rewrite (IH _ _ _ H). by eapply setitem_length.
Qed.

(** Within the array's channels every assignment succeeds, and a channel
    ends up holding [v] exactly when it is listed. *)
Lemma assign_each_channels indices : ∀ arr v,
  Forall (λ i, 1 <= i <= Z.of_nat (length arr)) indices →
  ∃ arr', assign_each arr indices v = Return arr'
    ∧ length arr' = length arr
    ∧ ∀ j, 1 <= j →
        channel arr' j = if decide (j ∈ indices) then Some v else channel arr j.
Proof.
  induction indices as [|i rest IH]; intros arr v Hall; cbn [assign_each].
  - exists arr. split_and!; [done..|]. intros j _.
    case_decide as E; [|done]. by apply not_elem_of_nil in E.
  - apply Forall_cons in Hall as [Hi Hrest].
    rewrite setitem_channel by done.
    destruct (IH (<[Z.to_nat (i - 1) := v]> arr) v) as (arr' & Hrun & Hlen & Hch).
    { by rewrite length_insert. }
    exists arr'. split_and!; [done| by rewrite Hlen, length_insert |].
    intros j Hj. rewrite (Hch j Hj), channel_insert by done.
    destruct (decide (j = i)) as [->|Hne].
    + rewrite (decide_True (P := i ∈ i :: rest)) by (apply elem_of_cons; tauto).
      by case_decide.
    + destruct (decide (j ∈ rest)) as [Hr|Hr].
      * rewrite decide_True by (apply elem_of_cons; tauto). done.
      * rewrite decide_False; [done|]. rewrite elem_of_cons. tauto.
Qed.

(** An array of 32 items is determined by its channels. *)
Lemma array_of_channels arr (f : Z → Z) :
  length arr = 32%nat →
  (∀ i, in_register i → channel arr i = Some (f i)) →
  arr = f <$> seqZ 1 32.
Proof.
  intros Hlen Hch. apply list_eq. intros n.
  rewrite list_lookup_fmap.
  destruct (decide (n < 32)%nat) as [Hn|Hn].
  - rewrite lookup_seqZ_lt by lia. simpl.
    specialize (Hch (1 + Z.of_nat n)). unfold channel, in_register in Hch.
    replace (Z.to_nat (1 + Z.of_nat n - 1)) with n in Hch by lia.
    apply Hch. lia.
  - rewrite lookup_seqZ_ge by lia. simpl.
    apply lookup_ge_None. lia.
Qed.

Lemma count_owned_marks (P : Z → Prop) `{!∀ i, Decision (P i)} (l : list Z) :
  count_owned ((λ i, if decide (P i) then 1 else 0) <$> l) = length (filter P l).
Proof.
  unfold count_owned. induction l as [|x l IH]; [done|].
  rewrite fmap_cons. destruct (decide (P x)) as [Hx|Hx].
  - rewrite !filter_cons_True by done. simpl. by rewrite IH.
  - rewrite !filter_cons_False by done. done.
Qed.

Lemma listed_channels (owned : list Z) :
  Forall in_register owned →
  filter (λ i, i ∈ owned) (seqZ 1 32) ≡ₚ remove_dups owned.
Proof.
  intros Hin. apply NoDup_Permutation.
  - apply NoDup_filter, NoDup_seqZ.
  - apply NoDup_remove_dups.
  - intros x. rewrite list_elem_of_filter, elem_of_remove_dups, elem_of_seqZ.
    split; [by intros [? _]|]. intros Hx. split; [done|].
    rewrite Forall_forall in Hin. specialize (Hin x Hx).
    unfold in_register in Hin. lia.
Qed.

End assignment.

(** ** The two arrays of the writer *)

Section arrays.
Implicit Types (set_indices owned_indices : list Z) (fill : Z) (w : World).

Lemma initial_array (v : Z) :
  foldl (λ arr _, arr ++ [v]) [] (range 0 32) = replicate 32 v.
Proof. reflexivity. Qed.

Lemma dio_arrays_unfold set_indices owned_indices fill w :
  dio_arrays set_indices owned_indices fill w =
  (match assign_each (replicate 32 fill) set_indices
           (if decide (fill = _DIO_ASSIGN_ON) then _DIO_ASSIGN_OFF else _DIO_ASSIGN_ON) with
   | Return dout =>
       match assign_each (replicate 32 _DIO_MASK) owned_indices 1 with
       | Return mask => Return (dout, mask)
       | Raise e => Raise e
       end
   | Raise e => Raise e
   end, traced set_indices w).
Proof.
  unfold dio_arrays. rewrite !initial_array.
  unfold mbind, M_bind, mret, M_ret, lift, emit, traced. simpl.
  destruct (assign_each _ set_indices _); [|done].
  destruct (assign_each _ owned_indices _); done.
Qed.

(** What a returned pair of arrays was computed from. *)
Lemma dio_arrays_inv set_indices owned_indices fill w dout mask w' :
  dio_arrays set_indices owned_indices fill w = (Return (dout, mask), w') →
  assign_each (replicate 32 fill) set_indices
    (if decide (fill = _DIO_ASSIGN_ON) then _DIO_ASSIGN_OFF else _DIO_ASSIGN_ON)
    = Return dout
  ∧ assign_each (replicate 32 _DIO_MASK) owned_indices 1 = Return mask
  ∧ w' = traced set_indices w.
Proof.
  rewrite dio_arrays_unfold. intros H.
  destruct (assign_each (replicate 32 fill) _ _) as [d|]; [|by simplify_eq].
  destruct (assign_each (replicate 32 _DIO_MASK) _ _) as [m|]; by simplify_eq.
Qed.

Lemma in_register_array (v : Z) (indices : list Z) :
  Forall in_register indices →
  Forall (λ i, 1 <= i <= Z.of_nat (length (replicate 32 v))) indices.
Proof.
  intros H. eapply Forall_impl; [exact H|].
  intros i Hi. rewrite length_replicate. unfold in_register in Hi. lia.
Qed.

(** With every index in 1..32 no assignment raises. *)
Lemma dio_arrays_returns set_indices owned_indices fill w :
  Forall in_register set_indices →
  Forall in_register owned_indices →
  ∃ dout mask,
    dio_arrays set_indices owned_indices fill w
    = (Return (dout, mask), traced set_indices w).
Proof.
  intros Hset Hown. rewrite dio_arrays_unfold.
  destruct (assign_each_channels set_indices (replicate 32 fill)
              (if decide (fill = _DIO_ASSIGN_ON) then _DIO_ASSIGN_OFF else _DIO_ASSIGN_ON)
              (in_register_array fill set_indices Hset)) as (dout & -> & _).
  destruct (assign_each_channels owned_indices (replicate 32 _DIO_MASK) 1
              (in_register_array _DIO_MASK owned_indices Hown)) as (mask & -> & _).
  by exists dout, mask.
Qed.

Lemma channel_replicate (v i : Z) :
  in_register i → channel (replicate 32 v) i = Some v.
Proof.
  intros Hi. unfold channel, in_register in *.
  apply lookup_replicate_2. lia.
Qed.

(** The mask of a returned pair, whatever [set_indices] and [fill] were. *)
Lemma mask_channels owned_indices mask :
  Forall in_register owned_indices →
  assign_each (replicate 32 _DIO_MASK) owned_indices 1 = Return mask →
  length mask = 32%nat
  ∧ (∀ i, in_register i →
       channel mask i = Some (if decide (i ∈ owned_indices) then OWNED else NOT_OWNED))
  ∧ mask = (λ i, if decide (i ∈ owned_indices) then OWNED else NOT_OWNED) <$> seqZ 1 32.
Proof.
  intros Hown Hrun.
  destruct (assign_each_channels owned_indices (replicate 32 _DIO_MASK) 1
              (in_register_array _DIO_MASK owned_indices Hown)) as (mask' & Hrun' & Hlen & Hch).
  rewrite Hrun in Hrun'. simplify_eq. rewrite length_replicate in Hlen.
  assert (∀ i, in_register i →
    channel mask' i = Some (if decide (i ∈ owned_indices) then OWNED else NOT_OWNED))
    as Hall.
  { intros i Hi. rewrite Hch by (unfold in_register in Hi; lia).
    case_decide; [done|]. by rewrite channel_replicate. }
  split_and!; [done|done|]. by apply array_of_channels.
Qed.

Lemma mask_count owned_indices mask :
  Forall in_register owned_indices →
  assign_each (replicate 32 _DIO_MASK) owned_indices 1 = Return mask →
  count_owned mask = length (remove_dups owned_indices).
Proof.
  intros Hown Hrun.
  destruct (mask_channels _ _ Hown Hrun) as (_ & _ & ->).
  rewrite (count_owned_marks (λ i, i ∈ owned_indices)).
  by rewrite (listed_channels _ Hown).
Qed.

Lemma remove_dups_NoDup_length (l : list Z) :
  NoDup l → length (remove_dups l) = length l.
Proof.
  intros Hl. apply Permutation_length, NoDup_Permutation;
    [apply NoDup_remove_dups|done|]. intros x. apply elem_of_remove_dups.
Qed.

End arrays.

Section output_array.
Implicit Types (set_indices owned_indices : list Z) (fill : Z) (w : World).

Lemma dout_channels set_indices fill (v : Z) dout :
  Forall in_register set_indices →
  assign_each (replicate 32 fill) set_indices v = Return dout →
  length dout = 32%nat
  ∧ ∀ i, in_register i →
      channel dout i = Some (if decide (i ∈ set_indices) then v else fill).
Proof.
  intros Hset Hrun.
  destruct (assign_each_channels set_indices (replicate 32 fill) v
              (in_register_array fill set_indices Hset)) as (dout' & Hrun' & Hlen & Hch).
  rewrite Hrun in Hrun'. simplify_eq. rewrite length_replicate in Hlen.
  split; [done|]. intros i Hi.
  rewrite Hch by (unfold in_register in Hi; lia).
  case_decide; [done|]. by rewrite channel_replicate.
Qed.

(** On the two legal fill values the writer's alternate signal is the
    spec's. *)
Lemma signal_alternate_spec fill :
  fill = ASSERT ∨ fill = DEASSERT →
  (if decide (fill = _DIO_ASSIGN_ON) then _DIO_ASSIGN_OFF else _DIO_ASSIGN_ON)
  = alternate fill.
Proof. by intros [->| ->]. Qed.

End output_array.

(** C2.  For [fill] in {ASSERT, DEASSERT} and [set_indices] within 1..32, the
    output array the writer builds has 32 items, holds [fill] at every
    channel not in [set_indices] and the alternate value
    ([ASSERT if fill == DEASSERT else DEASSERT], the complement of [fill]) at
    every channel in [set_indices]; and the arrays are built, the
    [owned_indices] being within 1..32 as well. *)
Theorem output_is_fill_except_set
    (set_indices owned_indices : list Z) (fill : Z) (w : World) :
  fill = ASSERT ∨ fill = DEASSERT →
  Forall in_register set_indices →
  (∀ dout mask w',
      dio_arrays set_indices owned_indices fill w = (Return (dout, mask), w') →
      length dout = 32%nat
      ∧ ∀ i, in_register i →
          channel dout i = Some (if decide (i ∈ set_indices) then alternate fill else fill))
  ∧ alternate fill = 1 - fill
  ∧ (Forall in_register owned_indices →
     ∃ dout mask w',
       dio_arrays set_indices owned_indices fill w = (Return (dout, mask), w')).
Proof.
  intros Hfill Hset. split_and!.
  - intros dout mask w' Hrun.
    apply dio_arrays_inv in Hrun as (Hdout & _ & _).
    rewrite signal_alternate_spec in Hdout by done.
    by apply dout_channels.
  - by destruct Hfill as [->| ->].
  - intros Hown.
    destruct (dio_arrays_returns set_indices owned_indices fill w Hset Hown)
      as (dout & mask & Hrun).
    by exists dout, mask, (traced set_indices w).
Qed.

Lemma output_is_fill_except_set_witness :
  (DEASSERT = ASSERT ∨ DEASSERT = DEASSERT)
  ∧ Forall in_register [24]
  ∧ ∃ dout mask w',
      dio_arrays [24] [24; 25] DEASSERT empty_world = (Return (dout, mask), w')
      ∧ channel dout 24 = Some ASSERT
      ∧ channel dout 25 = Some DEASSERT.
Proof.
  assert (DEASSERT = ASSERT ∨ DEASSERT = DEASSERT) as Hfill by (right; reflexivity).
  assert (Forall in_register [24]) as Hset
    by (repeat constructor; unfold in_register; lia).
  assert (Forall in_register [24; 25]) as Hown
    by (repeat constructor; unfold in_register; lia).
  split; [exact Hfill|]. split; [exact Hset|].
  destruct (output_is_fill_except_set [24] [24; 25] DEASSERT empty_world Hfill Hset)
    as (Hch & _ & Hret).
  destruct (Hret Hown) as (dout & mask & w' & Hrun).
  exists dout, mask, w'. split; [exact Hrun|].
  destruct (Hch dout mask w' Hrun) as [_ Hall].
  split.
  - apply (Hall 24). unfold in_register. lia.
  - apply (Hall 25). unfold in_register. lia.
Defined.

(** C3.  For [owned_indices] distinct and within 1..32, whatever
    [set_indices] and [fill] are, the mask array the writer builds has 32
    items, exactly [|owned_indices|] of them OWNED, located exactly at the
    listed channels, and 0 at every other channel; with no owned index the
    mask is all zero.  The arrays are built whenever the [set_indices] are
    within 1..32. *)
Theorem mask_marks_exactly_owned
    (set_indices owned_indices : list Z) (fill : Z) (w : World) :
  NoDup owned_indices →
  Forall in_register owned_indices →
  (∀ dout mask w',
      dio_arrays set_indices owned_indices fill w = (Return (dout, mask), w') →
      length mask = 32%nat
      ∧ count_owned mask = length owned_indices
      ∧ (∀ i, in_register i →
           channel mask i = Some (if decide (i ∈ owned_indices) then OWNED else 0))
      ∧ (owned_indices = [] → mask = replicate 32 0))
  ∧ (Forall in_register set_indices →
     ∃ dout mask w',
       dio_arrays set_indices owned_indices fill w = (Return (dout, mask), w')).
Proof.
  intros Hnodup Hown. split.
  - intros dout mask w' Hrun.
    apply dio_arrays_inv in Hrun as (_ & Hmask & _).
    destruct (mask_channels _ _ Hown Hmask) as (Hlen & Hch & Heq).
    split_and!; [done| |done|].
    + rewrite (mask_count _ _ Hown Hmask). by apply remove_dups_NoDup_length.
    + intros ->. by simplify_eq/=.
  - intros Hset.
    destruct (dio_arrays_returns set_indices owned_indices fill w Hset Hown)
      as (dout & mask & Hrun).
    by exists dout, mask, (traced set_indices w).
Qed.

Lemma mask_marks_exactly_owned_witness :
  NoDup [24; 25]
  ∧ Forall in_register [24; 25]
  ∧ ∃ dout mask w',
      dio_arrays [24] [24; 25] DEASSERT empty_world = (Return (dout, mask), w')
      ∧ count_owned mask = 2%nat
      ∧ channel mask 24 = Some OWNED
      ∧ channel mask 25 = Some OWNED
      ∧ channel mask 26 = Some 0.
Proof.
  assert (NoDup [24; 25]) as Hnodup.
  { apply NoDup_cons. split.
    - intros Hin. apply list_elem_of_singleton in Hin. discriminate Hin.
    - apply NoDup_singleton. }
  assert (Forall in_register [24]) as Hset
    by (repeat constructor; unfold in_register; lia).
  assert (Forall in_register [24; 25]) as Hown
    by (repeat constructor; unfold in_register; lia).
  split; [exact Hnodup|]. split; [exact Hown|].
  destruct (mask_marks_exactly_owned [24] [24; 25] DEASSERT empty_world Hnodup Hown)
    as (Hmask & Hret).
  destruct (Hret Hset) as (dout & mask & w' & Hrun).
  exists dout, mask, w'. split; [exact Hrun|].
  destruct (Hmask dout mask w' Hrun) as (_ & Hcount & Hall & _).
  split; [exact Hcount|].
  split_and!.
  - apply (Hall 24). unfold in_register. lia.
  - apply (Hall 25). unfold in_register. lia.
  - apply (Hall 26). unfold in_register. lia.
Defined.

Lemma remove_dups_in_register (indices : list Z) :
  Forall in_register indices → Forall in_register (remove_dups indices).
Proof.
  rewrite !Forall_forall. intros H x Hx. apply H. by apply elem_of_remove_dups.
Qed.

(** Listing a channel again leaves the mask as it was. *)
Lemma mask_of_remove_dups (owned_indices mask : list Z) :
  Forall in_register owned_indices →
  assign_each (replicate 32 _DIO_MASK) owned_indices 1 = Return mask →
  assign_each (replicate 32 _DIO_MASK) (remove_dups owned_indices) 1 = Return mask.
Proof.
  intros Hown Hrun.
  pose proof (remove_dups_in_register _ Hown) as Hown'.
  destruct (assign_each_channels (remove_dups owned_indices) (replicate 32 _DIO_MASK) 1
              (in_register_array _DIO_MASK _ Hown')) as (mask' & Hrun' & _).
  rewrite Hrun'. f_equal.
  destruct (mask_channels _ _ Hown Hrun) as (_ & _ & ->).
  destruct (mask_channels _ _ Hown' Hrun') as (_ & _ & ->).
  apply list_fmap_ext. intros _ i _.
  apply decide_ext, elem_of_remove_dups.
Qed.

(** C10.  When [owned_indices] lists channels of 1..32 more than once, the
    mask array still has OWNED exactly at the listed channels, the number of
    OWNED items is the number of distinct listed values, and the arrays are
    those built from the list without its repetitions. *)
Theorem mask_with_repeated_owned
    (set_indices owned_indices : list Z) (fill : Z) (w : World) :
  Forall in_register owned_indices →
  (∀ dout mask w',
      dio_arrays set_indices owned_indices fill w = (Return (dout, mask), w') →
      (∀ i, in_register i →
         channel mask i = Some (if decide (i ∈ owned_indices) then OWNED else 0))
      ∧ count_owned mask = length (remove_dups owned_indices)
      ∧ dio_arrays set_indices (remove_dups owned_indices) fill w
        = (Return (dout, mask), w'))
  ∧ (Forall in_register set_indices →
     ∃ dout mask w',
       dio_arrays set_indices owned_indices fill w = (Return (dout, mask), w')).
Proof.
  intros Hown. split.
  - intros dout mask w' Hrun.
    apply dio_arrays_inv in Hrun as (Hdout & Hmask & ->).
    destruct (mask_channels _ _ Hown Hmask) as (_ & Hch & _).
    split_and!; [done| by apply mask_count |].
    rewrite dio_arrays_unfold, Hdout.
    by rewrite (mask_of_remove_dups _ _ Hown Hmask).
  - intros Hset.
    destruct (dio_arrays_returns set_indices owned_indices fill w Hset Hown)
      as (dout & mask & Hrun).
    by exists dout, mask, (traced set_indices w).
Qed.

Lemma mask_with_repeated_owned_witness :
  Forall in_register [24; 25; 24; 24]
  ∧ ∃ dout mask w',
      dio_arrays [] [24; 25; 24; 24] DEASSERT empty_world = (Return (dout, mask), w')
      ∧ count_owned mask = 2%nat
      ∧ channel mask 24 = Some OWNED
      ∧ channel mask 23 = Some 0.
Proof.
  assert (Forall in_register [24; 25; 24; 24]) as Hown
    by (repeat constructor; unfold in_register; lia).
  split; [exact Hown|].
  destruct (mask_with_repeated_owned [] [24; 25; 24; 24] DEASSERT empty_world Hown)
    as (Hmask & Hret).
  destruct (Hret (Forall_nil_2 in_register)) as (dout & mask & w' & Hrun).
  exists dout, mask, w'. split; [exact Hrun|].
  destruct (Hmask dout mask w' Hrun) as (Hall & Hcount & _).
  split; [exact Hcount|]. split.
  - apply (Hall 24). unfold in_register. lia.
  - apply (Hall 23). unfold in_register. lia.
Defined.

(** ** The writer and the robot *)

Section writer.
Variables (self : BaseHands.t) (set_indices owned_indices : list Z) (fill : Z).

Lemma traced_writes (w : World) : writes (traced set_indices w) = writes w.
Proof. reflexivity. Qed.

(** An [IndexError] of the assignments leaves the writer before anything
    is printed or sent. *)
Lemma writer_raises (w w1 : World) (e : exn) :
  dio_arrays set_indices owned_indices fill w = (Raise e, w1) →
  _dio_writer self set_indices owned_indices fill w = (Raise e, w1).
Proof.
  intros H. unfold _dio_writer, mbind, M_bind at 1. by rewrite H.
Qed.

(** Without the attribute nothing is sent. *)
Lemma writer_without_capability (w w1 : World) (dout mask : list Z) :
  dio_arrays set_indices owned_indices fill w = (Return (dout, mask), w1) →
  (_parent self = None
   ∨ ∃ parent, _parent self = Some parent ∧ writeDigitalOutputWithMask parent = None) →
  _dio_writer self set_indices owned_indices fill w
  = (Return false,
     {| diagnostics := diagnostics w1 ++ [printed dout mask] ++ device_not_found;
        writes := writes w1 |}).
Proof.
  intros H Hno. unfold _dio_writer, mbind, M_bind at 1. rewrite H.
  unfold mbind, M_bind, mret, M_ret, emit, try_except_AttributeError,
    call_writeDigitalOutputWithMask.
  destruct Hno as [->|(parent & -> & ->)]; simpl;
    by rewrite <- !(assoc_L (++)).
Qed.

(** With the attribute the arrays are sent once, and the answer decides. *)
Lemma writer_with_capability (w w1 : World) (dout mask : list Z) parent method :
  dio_arrays set_indices owned_indices fill w = (Return (dout, mask), w1) →
  _parent self = Some parent →
  writeDigitalOutputWithMask parent = Some method →
  _dio_writer self set_indices owned_indices fill w
  = match method (writes w1) dout mask with
    | Raise AttributeError =>
        (Return false,
         {| diagnostics := diagnostics w1 ++ [printed dout mask] ++ device_not_found;
            writes := writes w1 ++ [(dout, mask)] |})
    | answer =>
        (answer,
         {| diagnostics := diagnostics w1 ++ [printed dout mask];
            writes := writes w1 ++ [(dout, mask)] |})
    end.
Proof.
  intros H Hp Hm. unfold _dio_writer, mbind, M_bind at 1. rewrite H.
  unfold mbind, M_bind, mret, M_ret, emit, try_except_AttributeError,
    call_writeDigitalOutputWithMask.
  rewrite Hp, Hm. simpl.
  destruct (method (writes w1) dout mask) as [b|[]]; simpl; try done.
  by rewrite <- !(assoc_L (++)).
Qed.

End writer.

Lemma new_diagnostics_traced (w : World) (indices : list Z) (ds : list diagnostic)
    (ws : list (list Z * list Z)) :
  new_diagnostics w
    {| diagnostics := diagnostics (traced indices w) ++ ds; writes := ws |}
  = logdebug "digitalout_indices={}" indices :: ds.
Proof.
  unfold new_diagnostics, traced. simpl.
  rewrite <- (assoc_L (++)). by rewrite drop_app_length.
Qed.

(** C4.  Once the arrays are built: if the write capability is missing (no
    parent, no such method, or the call reports a missing attribute), the
    writer raises nothing, returns [False] and logs at error severity (the
    two lines of the [except] branch); if the robot has the capability and
    rejects the write, the writer returns [False] too but logs no error, so
    the error log tells the two apart. *)
Theorem missing_capability_is_a_logged_failure
    (self : BaseHands.t) (set_indices owned_indices : list Z) (fill : Z)
    (w w1 : World) (dout mask : list Z) :
  dio_arrays set_indices owned_indices fill w = (Return (dout, mask), w1) →
  (capability_missing self dout mask w →
     fst (_dio_writer self set_indices owned_indices fill w) = Return false
     ∧ errors (new_diagnostics w (snd (_dio_writer self set_indices owned_indices fill w)))
       = device_not_found
     ∧ Forall (λ d, severity_of d = ERROR) device_not_found)
  ∧ (hardware_rejects self dout mask w →
     fst (_dio_writer self set_indices owned_indices fill w) = Return false
     ∧ errors (new_diagnostics w (snd (_dio_writer self set_indices owned_indices fill w)))
       = []).
Proof.
  intros Hrun.
  pose proof (dio_arrays_inv _ _ _ _ _ _ _ Hrun) as (_ & _ & Hw1).
  split.
  - intros Hmiss. unfold capability_missing in Hmiss.
    destruct (_parent self) as [parent|] eqn:Hp.
    + destruct (writeDigitalOutputWithMask parent) as [method|] eqn:Hm.
      * rewrite (writer_with_capability self _ _ _ _ _ _ _ parent method Hrun Hp Hm).
        rewrite Hw1, traced_writes, Hmiss. cbn [fst snd].
        rewrite new_diagnostics_traced.
        split_and!; [done|done|]. by repeat constructor.
      * rewrite (writer_without_capability self _ _ _ _ _ _ _ Hrun)
          by (right; by exists parent).
        rewrite Hw1. cbn [fst snd]. rewrite new_diagnostics_traced.
        split_and!; [done|done|]. by repeat constructor.
    + rewrite (writer_without_capability self _ _ _ _ _ _ _ Hrun) by by left.
      rewrite Hw1. cbn [fst snd]. rewrite new_diagnostics_traced.
      split_and!; [done|done|]. by repeat constructor.
  - intros (parent & method & Hp & Hm & Hans).
    rewrite (writer_with_capability self _ _ _ _ _ _ _ parent method Hrun Hp Hm).
    rewrite Hw1, traced_writes, Hans. cbn [fst snd].
    by rewrite new_diagnostics_traced.
Qed.

Lemma missing_capability_is_a_logged_failure_witness :
  ∃ dout mask w1,
    dio_arrays [24] [24; 25] DEASSERT empty_world = (Return (dout, mask), w1)
    ∧ capability_missing (hands_of simulator) dout mask empty_world
    ∧ fst (_dio_writer (hands_of simulator) [24] [24; 25] DEASSERT empty_world)
      = Return false
    ∧ errors (new_diagnostics empty_world
                (snd (_dio_writer (hands_of simulator) [24] [24; 25] DEASSERT empty_world)))
      = device_not_found.
Proof.
  assert (Forall in_register [24]) as Hset
    by (repeat constructor; unfold in_register; lia).
  assert (Forall in_register [24; 25]) as Hown
    by (repeat constructor; unfold in_register; lia).
  destruct (dio_arrays_returns [24] [24; 25] DEASSERT empty_world Hset Hown)
    as (dout & mask & Hrun).
  exists dout, mask, (traced [24] empty_world).
  split; [exact Hrun|].
  assert (capability_missing (hands_of simulator) dout mask empty_world) as Hmiss
    by exact I.
  split; [exact Hmiss|].
  destruct (missing_capability_is_a_logged_failure (hands_of simulator)
              [24] [24; 25] DEASSERT empty_world _ dout mask Hrun) as [Hcase _].
  destruct (Hcase Hmiss) as (Hret & Herr & _).
  split; [exact Hret | exact Herr].
Defined.

(** Any other exception of the robot passes through the writer. *)
Lemma other_exception_escapes
    (self : BaseHands.t) (set_indices owned_indices : list Z) (fill : Z)
    (w w1 : World) (dout mask : list Z) parent method (e : exn) :
  dio_arrays set_indices owned_indices fill w = (Return (dout, mask), w1) →
  _parent self = Some parent →
  writeDigitalOutputWithMask parent = Some method →
  method (writes w) dout mask = Raise e →
  e ≠ AttributeError →
  fst (_dio_writer self set_indices owned_indices fill w) = Raise e.
Proof.
  intros Hrun Hp Hm Hans Hne.
  pose proof (dio_arrays_inv _ _ _ _ _ _ _ Hrun) as (_ & _ & Hw1).
  rewrite (writer_with_capability self _ _ _ _ _ _ _ parent method Hrun Hp Hm).
  rewrite Hw1, traced_writes, Hans. by destruct e.
Qed.

(** C7.  With a parent that has the capability and indices within 1..32, a
    call of the writer sends the robot exactly one pair of arrays (the one
    it built), and when the robot answers with a boolean the writer returns
    that boolean. *)
Theorem writer_invokes_hardware_once
    (self : BaseHands.t) (parent : HrpsysConfigurator)
    (method : list (list Z * list Z) → list Z → list Z → result bool)
    (set_indices owned_indices : list Z) (fill : Z) (w : World) :
  _parent self = Some parent →
  writeDigitalOutputWithMask parent = Some method →
  Forall in_register set_indices →
  Forall in_register owned_indices →
  ∃ dout mask,
    fst (dio_arrays set_indices owned_indices fill w) = Return (dout, mask)
    ∧ writes (snd (_dio_writer self set_indices owned_indices fill w))
      = writes w ++ [(dout, mask)]
    ∧ ∀ b : bool,
        method (writes w) dout mask = Return b →
        fst (_dio_writer self set_indices owned_indices fill w) = Return b.
Proof.
  intros Hp Hm Hset Hown.
  destruct (dio_arrays_returns set_indices owned_indices fill w Hset Hown)
    as (dout & mask & Hrun).
  exists dout, mask.
  rewrite (writer_with_capability self _ _ _ _ _ _ _ parent method Hrun Hp Hm).
  rewrite Hrun, traced_writes. split_and!.
  - done.
  - by destruct (method (writes w) dout mask) as [b|[]].
  - intros b ->. done.
Qed.

Lemma writer_invokes_hardware_once_witness :
  ∃ dout mask,
    fst (dio_arrays [24] [24; 25] DEASSERT empty_world) = Return (dout, mask)
    ∧ writes (snd (_dio_writer (hands_of (stub_parent (Return true)))
                     [24] [24; 25] DEASSERT empty_world))
      = [(dout, mask)]
    ∧ fst (_dio_writer (hands_of (stub_parent (Return true)))
             [24] [24; 25] DEASSERT empty_world) = Return true.
Proof.
  assert (Forall in_register [24]) as Hset
    by (repeat constructor; unfold in_register; lia).
  assert (Forall in_register [24; 25]) as Hown
    by (repeat constructor; unfold in_register; lia).
  destruct (writer_invokes_hardware_once (hands_of (stub_parent (Return true)))
              (stub_parent (Return true)) (λ _ _ _, Return true)
              [24] [24; 25] DEASSERT empty_world eq_refl eq_refl Hset Hown)
    as (dout & mask & Hrun & Hsent & Hret).
  exists dout, mask. split; [exact Hrun|]. split; [exact Hsent|].
  apply Hret. reflexivity.
Defined.

(** What one call sends the robot does not depend on the world it runs in. *)
Lemma writer_sends
    (self : BaseHands.t) (set_indices owned_indices : list Z) (fill : Z) :
  ∃ handed : list (list Z * list Z),
    ∀ w, writes (snd (_dio_writer self set_indices owned_indices fill w))
         = writes w ++ handed.
Proof.
  pose proof (dio_arrays_unfold set_indices owned_indices fill) as Hunfold.
  destruct (assign_each (replicate 32 fill) set_indices _) as [dout|e].
  - destruct (assign_each (replicate 32 _DIO_MASK) owned_indices 1) as [mask|e].
    + destruct (_parent self) as [parent|] eqn:Hp.
      * destruct (writeDigitalOutputWithMask parent) as [method|] eqn:Hm.
        -- exists [(dout, mask)]. intros w.
           rewrite (writer_with_capability self _ _ _ _ _ _ _ parent method
                      (Hunfold w) Hp Hm).
           by destruct (method _ dout mask) as [b|[]].
        -- exists []. intros w.
           rewrite (writer_without_capability self _ _ _ _ _ _ _ (Hunfold w))
             by (right; by exists parent).
           cbn [snd writes]. by rewrite traced_writes, app_nil_r.
      * exists []. intros w.
        rewrite (writer_without_capability self _ _ _ _ _ _ _ (Hunfold w)) by by left.
        cbn [snd writes]. by rewrite traced_writes, app_nil_r.
    + exists []. intros w.
      rewrite (writer_raises self _ _ _ _ _ _ (Hunfold w)).
      cbn [snd]. by rewrite traced_writes, app_nil_r.
  - exists []. intros w.
    rewrite (writer_raises self _ _ _ _ _ _ (Hunfold w)).
    cbn [snd]. by rewrite traced_writes, app_nil_r.
Qed.

(** C8.  Two calls of the writer with the same arguments, the second in the
    world the first leaves behind, send the robot the same arrays: the
    history of writes grows twice by the same list, which is a single
    (output, mask) pair when the parent has the capability and the indices
    are within 1..32. *)
Theorem writer_sends_identical_arrays
    (self : BaseHands.t) (set_indices owned_indices : list Z) (fill : Z) (w : World) :
  ∃ handed : list (list Z * list Z),
    writes (snd (_dio_writer self set_indices owned_indices fill w))
    = writes w ++ handed
    ∧ writes (snd (_dio_writer self set_indices owned_indices fill
                     (snd (_dio_writer self set_indices owned_indices fill w))))
      = (writes w ++ handed) ++ handed
    ∧ (∀ parent method,
         _parent self = Some parent →
         writeDigitalOutputWithMask parent = Some method →
         Forall in_register set_indices →
         Forall in_register owned_indices →
         ∃ dout mask, handed = [(dout, mask)]).
Proof.
  destruct (writer_sends self set_indices owned_indices fill) as (handed & Hsent).
  exists handed. split_and!.
  - apply Hsent.
  - by rewrite !Hsent.
  - intros parent method Hp Hm Hset Hown.
    destruct (dio_arrays_returns set_indices owned_indices fill w Hset Hown)
      as (dout & mask & Hrun).
    exists dout, mask.
    pose proof (Hsent w) as Hw.
    rewrite (writer_with_capability self _ _ _ _ _ _ _ parent method Hrun Hp Hm) in Hw.
    rewrite traced_writes in Hw.
    apply (app_inv_head (writes w)). rewrite <- Hw.
    by destruct (method (writes w) dout mask) as [b|[]].
Qed.

Lemma writer_sends_identical_arrays_witness :
  ∃ dout mask,
    writes (snd (_dio_writer (hands_of one_shot_parent) [24] [24; 25] DEASSERT
                   (snd (_dio_writer (hands_of one_shot_parent) [24] [24; 25] DEASSERT
                           empty_world))))
    = [(dout, mask); (dout, mask)].
Proof.
  assert (Forall in_register [24]) as Hset
    by (repeat constructor; unfold in_register; lia).
  assert (Forall in_register [24; 25]) as Hown
    by (repeat constructor; unfold in_register; lia).
  destruct (writer_sends_identical_arrays (hands_of one_shot_parent)
              [24] [24; 25] DEASSERT empty_world) as (handed & _ & Htwice & Hone).
  destruct (Hone one_shot_parent _ eq_refl eq_refl Hset Hown) as (dout & mask & Heq).
  exists dout, mask. rewrite Htwice, Heq. reflexivity.
Defined.

(** The answers of the two calls may differ all the same. *)
Example one_shot_answers :
  fst (_dio_writer (hands_of one_shot_parent) [24] [24; 25] DEASSERT empty_world)
  = Return true
  ∧ fst (_dio_writer (hands_of one_shot_parent) [24] [24; 25] DEASSERT
           (snd (_dio_writer (hands_of one_shot_parent) [24] [24; 25] DEASSERT
                   empty_world)))
    = Return false.
Proof. split; reflexivity. Qed.

(** ** [init_dio] *)

(** C1.  [init_dio] calls the writer once, with fill ASSERT, but both index
    lists are the one list 16..31: the mask has its 16 OWNED items at
    channels 16..31 (channel 16 marked, channel 32 not), and the output is
    DEASSERT at every one of them. *)
Theorem init_dio_addresses_channels_16_to_31 (self : BaseHands.t) (w : World) :
  init_dio_arguments = (range 16 32, range 16 32)
  ∧ range 16 32 = [16; 17; 18; 19; 20; 21; 22; 23; 24; 25; 26; 27; 28; 29; 30; 31]
  ∧ init_dio self w
    = (_dio_writer self (range 16 32) (range 16 32) ASSERT ;; mret tt) w
  ∧ ∃ dout mask,
      dio_arrays (range 16 32) (range 16 32) ASSERT w
      = (Return (dout, mask), traced (range 16 32) w)
      ∧ dout = replicate 15 ASSERT ++ replicate 16 DEASSERT ++ [ASSERT]
      ∧ mask = replicate 15 NOT_OWNED ++ replicate 16 OWNED ++ [NOT_OWNED]
      ∧ count_owned mask = 16%nat
      ∧ channel mask 16 = Some OWNED
      ∧ channel mask 32 = Some NOT_OWNED
      ∧ (∀ i, 16 <= i <= 31 → channel mask i = Some OWNED ∧ channel dout i = Some DEASSERT).
Proof.
  split_and!; [reflexivity..|].
  eexists _, _. split; [rewrite dio_arrays_unfold; reflexivity|].
  split_and!; [reflexivity..|].
  intros i Hi.
  assert (i = 16 ∨ i = 17 ∨ i = 18 ∨ i = 19 ∨ i = 20 ∨ i = 21 ∨ i = 22 ∨ i = 23
          ∨ i = 24 ∨ i = 25 ∨ i = 26 ∨ i = 27 ∨ i = 28 ∨ i = 29 ∨ i = 30 ∨ i = 31)
    as Hcases by lia.
  repeat (destruct Hcases as [->|Hcases]; [split; reflexivity|]).
  subst i. split; reflexivity.
Qed.

(** C9.  An index 0 is not ignored: [arr[0 - 1]] is Python's last item, so a
    0 in [set_indices] writes the alternate signal to channel 32 and a 0 in
    [owned_indices] marks channel 32 OWNED. *)
Theorem index_zero_addresses_channel_32 (w : World) :
  dio_arrays [0] [0] DEASSERT w
  = (Return (replicate 31 DEASSERT ++ [ASSERT], replicate 31 NOT_OWNED ++ [OWNED]),
     traced [0] w)
  ∧ dio_arrays [] [] DEASSERT w
    = (Return (replicate 32 DEASSERT, replicate 32 NOT_OWNED), traced [] w)
  ∧ channel (replicate 31 DEASSERT ++ [ASSERT]) 32 = Some ASSERT
  ∧ channel (replicate 31 NOT_OWNED ++ [OWNED]) 32 = Some OWNED.
Proof.
  split_and!; try reflexivity; rewrite dio_arrays_unfold; reflexivity.
Qed.

(** ** Construction *)

(** C5 as stated fails: constructing with [None] raises no error and
    returns an instance. *)
Lemma construction_fails_without_parent_refuted :
  fst (new PyNone empty_world) = Return blank
  ∧ ¬ ∃ e, fst (new PyNone empty_world) = Raise e.
Proof.
  split; [reflexivity|]. intros [e He]. discriminate He.
Qed.

(** C5 (amended).  Constructing with a falsy parent raises nothing and emits
    nothing: [__init__] returns at once, and the instance that results has
    no [_parent]; with a truthy parent the instance holds it. *)
Theorem construction_without_parent_is_silent (parent : HrpsysConfigurator) (w : World) :
  (truth parent = false → new parent w = (Return blank, w) ∧ _parent blank = None)
  ∧ (truth parent = true → new parent w = (Return (hands_of parent), w)).
Proof.
  unfold new, __init__. split; intros ->; simpl; auto.
Qed.

Lemma construction_without_parent_is_silent_witness :
  truth PyNone = false
  ∧ new PyNone empty_world = (Return blank, empty_world).
Proof.
  split; [reflexivity|].
  destruct (construction_without_parent_is_silent PyNone empty_world) as [Hfalsy _].
  destruct (Hfalsy eq_refl) as [Hnew _]. exact Hnew.
Defined.

(** ** The hand commands *)

(** C6 as stated fails: a derived class that defines no hand command and
    rebinds [_MSG_ERR_NOTIMPLEMENTED] raises [NotImplementedError] with its
    own text, not the fixed one. *)
Lemma fixed_message_refuted :
  methods renamed_message_hands Gripper_l_open = None
  ∧ call_gesture renamed_message_hands Gripper_l_open blank empty_world
    = (Raise (NotImplementedError "unsupported by this hand"), empty_world)
  ∧ call_gesture renamed_message_hands Gripper_l_open blank empty_world
    ≠ (Raise (NotImplementedError "The method is not implemented in the derived class"),
       empty_world).
Proof.
  split; [reflexivity|]. split; [reflexivity|]. intros H. discriminate H.
Qed.

(** C6 (amended).  Every hand command that the derived class does not define
    raises [NotImplementedError] and does nothing else; the message is what
    [self._MSG_ERR_NOTIMPLEMENTED] resolves to: the text bound in the
    instance or the derived class when there is one, and the fixed text of
    [BaseHands] otherwise. *)
Theorem unimplemented_gesture_raises
    (cls : derived_class) (g : gesture) (self : BaseHands.t) (w : World) :
  methods cls g = None →
  call_gesture cls g self w
  = (Raise (NotImplementedError
              match shadowing_MSG_ERR_NOTIMPLEMENTED (attributes cls) with
              | Some text => text
              | None => "The method is not implemented in the derived class"
              end), w).
Proof.
  intros Hnone. unfold call_gesture. rewrite Hnone. by destruct g.
Qed.

Lemma unimplemented_gesture_raises_witness :
  methods closing_hands (Handlight_both true) = None
  ∧ call_gesture closing_hands (Handlight_both true) blank empty_world
    = (Raise (NotImplementedError "The method is not implemented in the derived class"),
       empty_world).
Proof.
  assert (methods closing_hands (Handlight_both true) = None) as Hnone by reflexivity.
  split; [exact Hnone|].
  exact (unimplemented_gesture_raises closing_hands (Handlight_both true) blank
           empty_world Hnone).
Defined.

(** * Further properties of the writer *)

(** ** Indices outside 1..32 *)

Section any_index.
Implicit Types (arr indices : list Z) (i v : Z).

Lemma addressed_in_register i : accepted i → in_register (addressed i).
Proof. unfold accepted, addressed, in_register. case_decide; lia. Qed.

Lemma addressed_channel i : in_register i → addressed i = i.
Proof. unfold addressed, in_register. intros Hi. by rewrite decide_True by lia. Qed.

Lemma in_register_accepted indices :
  Forall in_register indices → Forall accepted indices.
Proof.
  intros H. eapply Forall_impl; [exact H|].
  unfold in_register, accepted. intros i Hi. lia.
Qed.

Lemma setitem_addressed arr i v :
  length arr = 32%nat → accepted i →
  setitem arr (i - 1) v = Return (<[Z.to_nat (addressed i - 1) := v]> arr).
Proof.
  intros Hlen Hi. unfold setitem, addressed, accepted in *. rewrite Hlen.
  destruct (decide (1 <= i)).
  - by rewrite decide_True by lia.
  - rewrite decide_False by lia. rewrite decide_True by lia.
    do 2 f_equal. lia.
Qed.

Lemma setitem_rejected arr i v :
  length arr = 32%nat → ¬ accepted i → setitem arr (i - 1) v = Raise IndexError.
Proof.
  intros Hlen Hi. unfold setitem, accepted in *. rewrite Hlen.
  rewrite decide_False by lia. by rewrite decide_False by lia.
Qed.

(** Accepted indices act as the channels they reach. *)
Lemma assign_each_addressed indices : ∀ arr v,
  length arr = 32%nat → Forall accepted indices →
  assign_each arr indices v = assign_each arr (addressed <$> indices) v.
Proof.
  induction indices as [|i rest IH]; intros arr v Hlen Hall; [done|].
  apply Forall_cons in Hall as [Hi Hrest].
  rewrite fmap_cons. cbn [assign_each].
  rewrite setitem_addressed by done.
  pose proof (addressed_in_register i Hi) as Hreg. unfold in_register in Hreg.
  rewrite setitem_channel by (rewrite Hlen; lia).
  apply IH; [|done]. by rewrite length_insert.
Qed.

(** One index that is not accepted makes the whole loop raise. *)
Lemma assign_each_rejected indices : ∀ arr v,
  length arr = 32%nat → Exists (λ i, ¬ accepted i) indices →
  assign_each arr indices v = Raise IndexError.
Proof.
  induction indices as [|i rest IH]; intros arr v Hlen Hex.
  - by apply Exists_nil in Hex.
  - cbn [assign_each]. destruct (decide (accepted i)) as [Hi|Hi].
    + rewrite setitem_addressed by done.
      apply IH; [by rewrite length_insert|].
      apply Exists_cons in Hex as [Hbad|Hbad]; [done|exact Hbad].
    + by rewrite setitem_rejected.
Qed.

(** Item assignment raises nothing but [IndexError]. *)
Lemma assign_each_raise indices : ∀ arr v e,
  assign_each arr indices v = Raise e → e = IndexError.
Proof.
  induction indices as [|i rest IH]; intros arr v e H; cbn [assign_each] in H.
  - discriminate H.
  - destruct (setitem arr (i - 1) v) as [arr'|e'] eqn:E.
    + by eapply IH.
    + unfold setitem in E. repeat case_decide; by simplify_eq.
Qed.

Lemma addressed_all_in_register indices :
  Forall accepted indices → Forall in_register (addressed <$> indices).
Proof.
  intros H. apply Forall_fmap. eapply Forall_impl; [exact H|].
  intros i Hi. by apply addressed_in_register.
Qed.

End any_index.

(** With accepted indices the arrays are those of the channels reached. *)
Lemma dio_arrays_addressed (set_indices owned_indices : list Z) (fill : Z) (w : World) :
  Forall accepted set_indices →
  Forall accepted owned_indices →
  fst (dio_arrays set_indices owned_indices fill w)
  = fst (dio_arrays (addressed <$> set_indices) (addressed <$> owned_indices) fill w).
Proof.
  intros Hset Hown. rewrite !dio_arrays_unfold. cbn [fst].
  rewrite (assign_each_addressed set_indices) by (by rewrite ?length_replicate).
  by rewrite (assign_each_addressed owned_indices) by (by rewrite ?length_replicate).
Qed.

Lemma dio_arrays_world (set_indices owned_indices : list Z) (fill : Z) (w : World) :
  snd (dio_arrays set_indices owned_indices fill w) = traced set_indices w.
Proof. by rewrite dio_arrays_unfold. Qed.

Lemma dio_arrays_rejected (set_indices owned_indices : list Z) (fill : Z) (w : World) :
  Exists (λ i, ¬ accepted i) (set_indices ++ owned_indices) →
  dio_arrays set_indices owned_indices fill w = (Raise IndexError, traced set_indices w).
Proof.
  intros Hex. rewrite dio_arrays_unfold. f_equal.
  apply Exists_app in Hex as [Hbad|Hbad].
  - by rewrite (assign_each_rejected set_indices) by (by rewrite ?length_replicate).
  - rewrite (assign_each_rejected owned_indices) by (by rewrite ?length_replicate).
    destruct (assign_each _ set_indices _) as [dout|e] eqn:E; [done|].
    by rewrite (assign_each_raise _ _ _ _ E).
Qed.

(** The arrays built from accepted indices, channel by channel. *)
Lemma arrays_of_accepted (set_indices owned_indices : list Z) (fill : Z) (w : World) :
  Forall accepted set_indices →
  Forall accepted owned_indices →
  ∃ dout mask,
    dio_arrays set_indices owned_indices fill w
    = (Return (dout, mask), traced set_indices w)
    ∧ dout = (λ j, if decide (j ∈ addressed <$> set_indices)
                   then (if decide (fill = _DIO_ASSIGN_ON)
                         then _DIO_ASSIGN_OFF else _DIO_ASSIGN_ON)
                   else fill) <$> seqZ 1 32
    ∧ mask = (λ j, if decide (j ∈ addressed <$> owned_indices)
                   then OWNED else NOT_OWNED) <$> seqZ 1 32.
Proof.
  intros Hset Hown.
  pose proof (addressed_all_in_register _ Hset) as Hset'.
  pose proof (addressed_all_in_register _ Hown) as Hown'.
  destruct (dio_arrays_returns (addressed <$> set_indices) (addressed <$> owned_indices)
              fill w Hset' Hown') as (dout & mask & Hrun).
  exists dout, mask. split.
  - rewrite (surjective_pairing (dio_arrays set_indices owned_indices fill w)).
    rewrite dio_arrays_world, dio_arrays_addressed by done. by rewrite Hrun.
  - apply dio_arrays_inv in Hrun as (Hdout & Hmask & _).
    destruct (dout_channels _ _ _ _ Hset' Hdout) as [Hlen Hch].
    destruct (mask_channels _ _ Hown' Hmask) as (_ & _ & Heq).
    split; [|done]. by apply array_of_channels.
Qed.

Lemma channel_of_map (f : Z → Z) (j : Z) :
  in_register j → channel (f <$> seqZ 1 32) j = Some (f j).
Proof.
  intros Hj. unfold channel, in_register in *.
  rewrite list_lookup_fmap, lookup_seqZ_lt by lia. simpl. f_equal. f_equal. lia.
Qed.

(** X1.  The writer raises [IndexError] as soon as one index of either list
    lies outside -31..32: the debug line is all it leaves behind, nothing is
    printed and the robot is not called.  With every index inside -31..32
    both arrays are built. *)
Theorem writer_index_error
    (self : BaseHands.t) (set_indices owned_indices : list Z) (fill : Z) (w : World) :
  (Exists (λ i, ¬ accepted i) (set_indices ++ owned_indices) →
     _dio_writer self set_indices owned_indices fill w
     = (Raise IndexError, traced set_indices w)
     ∧ writes (traced set_indices w) = writes w)
  ∧ (Forall accepted (set_indices ++ owned_indices) →
     ∃ dout mask,
       dio_arrays set_indices owned_indices fill w
       = (Return (dout, mask), traced set_indices w)).
Proof.
  split.
  - intros Hex. split; [|done].
    by apply writer_raises, dio_arrays_rejected.
  - intros Hall. apply Forall_app in Hall as [Hset Hown].
    destruct (arrays_of_accepted set_indices owned_indices fill w Hset Hown)
      as (dout & mask & Hrun & _).
    by exists dout, mask.
Qed.

Lemma writer_index_error_witness :
  Exists (λ i, ¬ accepted i) ([24] ++ [24; 33])
  ∧ _dio_writer (hands_of (stub_parent (Return true))) [24] [24; 33] DEASSERT empty_world
    = (Raise IndexError, traced [24] empty_world).
Proof.
  assert (Exists (λ i, ¬ accepted i) ([24] ++ [24; 33])) as Hex.
  { apply Exists_app. right. apply Exists_cons. right. apply Exists_cons. left.
    unfold accepted. lia. }
  split; [exact Hex|].
  destruct (writer_index_error (hands_of (stub_parent (Return true)))
              [24] [24; 33] DEASSERT empty_world) as [Hraise _].
  destruct (Hraise Hex) as [Hrun _]. exact Hrun.
Defined.

(** X2.  With every index within -31..32 the arrays are built, have 32
    items each, and an index [i] reaches channel [i] when [1 <= i] and
    channel [i + 32] otherwise: the output holds the alternate signal (0
    when the padding is 1, else 1) at the channels reached from
    [set_indices] and the padding, whatever integer it is, elsewhere; the
    mask is OWNED at the channels reached from [owned_indices] and 0
    elsewhere. *)
Theorem channels_reached_from_indices
    (set_indices owned_indices : list Z) (fill : Z) (w : World) :
  Forall accepted set_indices →
  Forall accepted owned_indices →
  ∃ dout mask,
    dio_arrays set_indices owned_indices fill w
    = (Return (dout, mask), traced set_indices w)
    ∧ length dout = 32%nat
    ∧ length mask = 32%nat
    ∧ ∀ j, in_register j →
        channel dout j
        = Some (if decide (j ∈ addressed <$> set_indices)
                then (if decide (fill = 1) then 0 else 1)
                else fill)
        ∧ channel mask j
          = Some (if decide (j ∈ addressed <$> owned_indices) then OWNED else NOT_OWNED).
Proof.
  intros Hset Hown.
  destruct (arrays_of_accepted set_indices owned_indices fill w Hset Hown)
    as (dout & mask & Hrun & -> & ->).
  eexists _, _. split; [exact Hrun|].
  split_and!; [by rewrite length_fmap, length_seqZ..|].
  intros j Hj. by rewrite !channel_of_map.
Qed.

Lemma channels_reached_from_indices_witness :
  Forall accepted [-1]
  ∧ Forall accepted [0; -31; 5]
  ∧ ∃ dout mask w',
      dio_arrays [-1] [0; -31; 5] 7 empty_world = (Return (dout, mask), w')
      ∧ channel dout 31 = Some 1
      ∧ channel dout 30 = Some 7
      ∧ channel mask 32 = Some OWNED
      ∧ channel mask 1 = Some OWNED
      ∧ channel mask 5 = Some OWNED
      ∧ channel mask 31 = Some NOT_OWNED.
Proof.
  assert (Forall accepted [-1]) as Hset
    by (repeat constructor; unfold accepted; lia).
  assert (Forall accepted [0; -31; 5]) as Hown
    by (repeat constructor; unfold accepted; lia).
  split; [exact Hset|]. split; [exact Hown|].
  destruct (channels_reached_from_indices [-1] [0; -31; 5] 7 empty_world Hset Hown)
    as (dout & mask & Hrun & _ & _ & Hch).
  exists dout, mask, (traced [-1] empty_world). split; [exact Hrun|].
  assert (∀ j, 1 <= j <= 32 → in_register j) as Hreg by (intros j Hj; exact Hj).
  split_and!.
  - apply (Hch 31). apply Hreg. lia.
  - apply (Hch 30). apply Hreg. lia.
  - apply (Hch 32). apply Hreg. lia.
  - apply (Hch 1). apply Hreg. lia.
  - apply (Hch 5). apply Hreg. lia.
  - apply (Hch 31). apply Hreg. lia.
Defined.

Lemma accepted_or_rejected (indices : list Z) :
  Forall accepted indices ∨ Exists (λ i, ¬ accepted i) indices.
Proof.
  destruct (decide (Forall accepted indices)) as [H|H]; [by left|right].
  exact (not_Forall_Exists accepted indices H).
Qed.

(** Arrays are only returned from accepted indices. *)
Lemma returned_from_accepted (set_indices owned_indices : list Z) (fill : Z)
    (w w' : World) (dout mask : list Z) :
  dio_arrays set_indices owned_indices fill w = (Return (dout, mask), w') →
  Forall accepted set_indices ∧ Forall accepted owned_indices.
Proof.
  intros Hrun. apply Forall_app.
  destruct (accepted_or_rejected (set_indices ++ owned_indices)) as [H|H]; [done|].
  rewrite (dio_arrays_rejected _ _ fill w H) in Hrun. discriminate Hrun.
Qed.

(** X3.  A channel listed in [set_indices] but not in [owned_indices] (all
    indices within 1..32) gets the alternate signal in the output while its
    mask item stays 0: the writer neither rejects nor repairs the request. *)
Theorem set_index_outside_owned
    (set_indices owned_indices : list Z) (fill : Z) (w : World) (i : Z) :
  Forall in_register set_indices →
  Forall in_register owned_indices →
  i ∈ set_indices →
  i ∉ owned_indices →
  ∃ dout mask,
    dio_arrays set_indices owned_indices fill w
    = (Return (dout, mask), traced set_indices w)
    ∧ channel dout i = Some (if decide (fill = 1) then 0 else 1)
    ∧ channel mask i = Some NOT_OWNED.
Proof.
  intros Hset Hown Hin Hout.
  destruct (dio_arrays_returns set_indices owned_indices fill w Hset Hown)
    as (dout & mask & Hrun).
  exists dout, mask. split; [done|].
  assert (in_register i) as Hi by (rewrite Forall_forall in Hset; by apply Hset).
  apply dio_arrays_inv in Hrun as (Hdout & Hmask & _).
  destruct (dout_channels _ _ _ _ Hset Hdout) as [_ Hd].
  destruct (mask_channels _ _ Hown Hmask) as (_ & Hm & _).
  rewrite (Hd i Hi), (Hm i Hi).
  rewrite (decide_True (P := i ∈ set_indices)) by done.
  by rewrite (decide_False (P := i ∈ owned_indices)) by done.
Qed.

Lemma set_index_outside_owned_witness :
  ∃ dout mask,
    dio_arrays [19; 24] [24; 25] DEASSERT empty_world
    = (Return (dout, mask), traced [19; 24] empty_world)
    ∧ channel dout 19 = Some ASSERT
    ∧ channel mask 19 = Some NOT_OWNED.
Proof.
  assert (Forall in_register [19; 24]) as Hset
    by (repeat constructor; unfold in_register; lia).
  assert (Forall in_register [24; 25]) as Hown
    by (repeat constructor; unfold in_register; lia).
  assert (19 ∈ [19; 24]) as Hin by (apply elem_of_cons; by left).
  assert (19 ∉ [24; 25]) as Hout.
  { intros H. apply elem_of_cons in H as [H|H]; [discriminate H|].
    apply list_elem_of_singleton in H. discriminate H. }
  exact (set_index_outside_owned [19; 24] [24; 25] DEASSERT empty_world 19
           Hset Hown Hin Hout).
Defined.

(** X4.  The mask depends on [owned_indices] alone and the output on
    [set_indices] and the padding alone: two calls that agree on
    [owned_indices] build the same mask whatever their other arguments, and
    two calls that agree on [set_indices] and the padding build the same
    output whatever they own. *)
Theorem mask_and_output_are_independent
    (set_indices owned_indices set_indices' owned_indices' : list Z) (fill fill' : Z)
    (w w' : World) :
  (∀ dout mask w1 dout' mask' w1',
      dio_arrays set_indices owned_indices fill w = (Return (dout, mask), w1) →
      dio_arrays set_indices' owned_indices fill' w' = (Return (dout', mask'), w1') →
      mask = mask')
  ∧ (∀ dout mask w1 dout' mask' w1',
      dio_arrays set_indices owned_indices fill w = (Return (dout, mask), w1) →
      dio_arrays set_indices owned_indices' fill w' = (Return (dout', mask'), w1') →
      dout = dout').
Proof.
  split; intros dout mask w1 dout' mask' w1' Hrun Hrun';
    apply dio_arrays_inv in Hrun as (Hdout & Hmask & _);
    apply dio_arrays_inv in Hrun' as (Hdout' & Hmask' & _); congruence.
Qed.

Lemma mask_and_output_are_independent_witness :
  ∃ dout mask dout',
    dio_arrays [24] [24; 25] DEASSERT empty_world
    = (Return (dout, mask), traced [24] empty_world)
    ∧ dio_arrays [] [24; 25] ASSERT empty_world
      = (Return (dout', mask), traced [] empty_world).
Proof.
  assert (Forall in_register [24]) as Hset
    by (repeat constructor; unfold in_register; lia).
  assert (Forall in_register [24; 25]) as Hown
    by (repeat constructor; unfold in_register; lia).
  destruct (dio_arrays_returns [24] [24; 25] DEASSERT empty_world Hset Hown)
    as (dout & mask & Hrun).
  destruct (dio_arrays_returns [] [24; 25] ASSERT empty_world
              (Forall_nil_2 in_register) Hown) as (dout' & mask' & Hrun').
  destruct (mask_and_output_are_independent [24] [24; 25] [] [24; 25]
              DEASSERT ASSERT empty_world empty_world) as [Hmask _].
  exists dout, mask, dout'. split; [exact Hrun|].
  rewrite (Hmask dout mask _ dout' mask' _ Hrun Hrun'). exact Hrun'.
Defined.

Lemma same_indices_accepted (indices indices' : list Z) :
  (∀ i, i ∈ indices ↔ i ∈ indices') →
  Forall accepted indices → Forall accepted indices'.
Proof.
  intros Hsame. rewrite !Forall_forall. intros H i Hi. by apply H, Hsame.
Qed.

Lemma same_indices_addressed (indices indices' : list Z) (j : Z) :
  (∀ i, i ∈ indices ↔ i ∈ indices') →
  j ∈ addressed <$> indices ↔ j ∈ addressed <$> indices'.
Proof.
  intros Hsame. rewrite !list_elem_of_fmap.
  split; intros (i & -> & Hi); exists i; (split; [done|by apply Hsame]).
Qed.

(** X5.  Only the values listed matter, not their order nor how often they
    are repeated: two requests whose [set_indices] have the same members and
    whose [owned_indices] have the same members build the same two arrays,
    or both raise [IndexError]. *)
Theorem arrays_depend_on_listed_values
    (set_indices owned_indices set_indices' owned_indices' : list Z) (fill : Z)
    (w w' : World) :
  (∀ i, i ∈ set_indices ↔ i ∈ set_indices') →
  (∀ i, i ∈ owned_indices ↔ i ∈ owned_indices') →
  fst (dio_arrays set_indices owned_indices fill w)
  = fst (dio_arrays set_indices' owned_indices' fill w').
Proof.
  intros Hs Ho.
  destruct (accepted_or_rejected (set_indices ++ owned_indices)) as [Hall|Hex].
  - apply Forall_app in Hall as [Hset Hown].
    pose proof (same_indices_accepted _ _ Hs Hset) as Hset'.
    pose proof (same_indices_accepted _ _ Ho Hown) as Hown'.
    destruct (arrays_of_accepted set_indices owned_indices fill w Hset Hown)
      as (dout & mask & -> & -> & ->).
    destruct (arrays_of_accepted set_indices' owned_indices' fill w' Hset' Hown')
      as (dout' & mask' & -> & -> & ->).
    cbn [fst]. do 2 f_equal.
    + apply list_fmap_ext. intros _ j _. by apply decide_ext, same_indices_addressed.
    + apply list_fmap_ext. intros _ j _. by apply decide_ext, same_indices_addressed.
  - assert (Exists (λ i, ¬ accepted i) (set_indices' ++ owned_indices')) as Hex'.
    { apply Exists_exists in Hex as (i & Hi & Hbad). apply Exists_exists.
      exists i. split; [|done].
      rewrite elem_of_app in *. destruct Hi as [Hi|Hi]; [left; by apply Hs|right; by apply Ho]. }
    by rewrite !dio_arrays_rejected.
Qed.

Lemma arrays_depend_on_listed_values_witness :
  (∀ i, i ∈ [19; 24; 19] ↔ i ∈ [24; 19])
  ∧ (∀ i, i ∈ [24; 25] ↔ i ∈ [25; 24; 24])
  ∧ fst (dio_arrays [19; 24; 19] [24; 25] DEASSERT empty_world)
    = fst (dio_arrays [24; 19] [25; 24; 24] DEASSERT empty_world).
Proof.
  assert (∀ i, i ∈ [19; 24; 19] ↔ i ∈ [24; 19]) as Hs.
  { intros i. rewrite !elem_of_cons, !elem_of_nil. tauto. }
  assert (∀ i, i ∈ [24; 25] ↔ i ∈ [25; 24; 24]) as Ho.
  { intros i. rewrite !elem_of_cons, !elem_of_nil. tauto. }
  split; [exact Hs|]. split; [exact Ho|].
  exact (arrays_depend_on_listed_values _ _ _ _ DEASSERT empty_world empty_world Hs Ho).
Defined.

(** X6.  Whatever the indices and the padding, arrays that are built have 32
    items each, the mask holds only 0 and 1, the output holds only the
    padding and the alternate signal, every index was within -31..32, and
    the one trace left is the debug line. *)
Theorem built_arrays_are_well_formed
    (set_indices owned_indices : list Z) (fill : Z) (w w' : World) (dout mask : list Z) :
  dio_arrays set_indices owned_indices fill w = (Return (dout, mask), w') →
  length dout = 32%nat
  ∧ length mask = 32%nat
  ∧ Forall (λ x, x = NOT_OWNED ∨ x = OWNED) mask
  ∧ Forall (λ x, x = fill ∨ x = (if decide (fill = 1) then 0 else 1)) dout
  ∧ Forall accepted (set_indices ++ owned_indices)
  ∧ w' = traced set_indices w.
Proof.
  intros Hrun.
  destruct (returned_from_accepted _ _ _ _ _ _ _ Hrun) as [Hset Hown].
  destruct (arrays_of_accepted set_indices owned_indices fill w Hset Hown)
    as (dout' & mask' & Hrun' & Hd & Hm).
  rewrite Hrun in Hrun'. injection Hrun' as Hd' Hm' Hw'. subst dout' mask' w'.
  rewrite Hd, Hm.
  split_and!; [by rewrite length_fmap, length_seqZ..| | | by apply Forall_app |done].
  - apply Forall_fmap, Forall_true. intros j. simpl.
    destruct (decide (j ∈ addressed <$> owned_indices)); [by right|by left].
  - apply Forall_fmap, Forall_true. intros j. simpl.
    destruct (decide (j ∈ addressed <$> set_indices)); [by right|by left].
Qed.

Lemma built_arrays_are_well_formed_witness :
  ∃ dout mask,
    dio_arrays [0; 24] [24; -3] 9 empty_world
    = (Return (dout, mask), traced [0; 24] empty_world)
    ∧ length dout = 32%nat
    ∧ length mask = 32%nat
    ∧ Forall (λ x, x = NOT_OWNED ∨ x = OWNED) mask
    ∧ Forall (λ x, x = 9 ∨ x = 1) dout.
Proof.
  assert (Forall accepted [0; 24]) as Hset
    by (repeat constructor; unfold accepted; lia).
  assert (Forall accepted [24; -3]) as Hown
    by (repeat constructor; unfold accepted; lia).
  destruct (arrays_of_accepted [0; 24] [24; -3] 9 empty_world Hset Hown)
    as (dout & mask & Hrun & _).
  exists dout, mask. split; [exact Hrun|].
  destruct (built_arrays_are_well_formed _ _ _ _ _ _ _ Hrun)
    as (Hd & Hm & Hmask & Hdout & _).
  split; [exact Hd|]. split; [exact Hm|]. split; [exact Hmask|exact Hdout].
Defined.

(** ** What a call leaves in the world *)

(** X7.  No call of the writer, whatever its arguments and whatever the
    robot does, takes anything back: the diagnostics grow, starting with the
    debug line of the requested indices, and the history of writes grows by
    at most one pair, which is the pair of arrays built from the
    arguments. *)
Theorem writer_only_appends
    (self : BaseHands.t) (set_indices owned_indices : list Z) (fill : Z) (w : World) :
  ∃ (handed : list (list Z * list Z)) (ds : list diagnostic),
    writes (snd (_dio_writer self set_indices owned_indices fill w))
    = writes w ++ handed
    ∧ diagnostics (snd (_dio_writer self set_indices owned_indices fill w))
      = diagnostics w ++ logdebug "digitalout_indices={}" set_indices :: ds
    ∧ (length handed ≤ 1)%nat
    ∧ ∀ dout mask,
        (dout, mask) ∈ handed →
        fst (dio_arrays set_indices owned_indices fill w) = Return (dout, mask).
Proof.
  destruct (accepted_or_rejected (set_indices ++ owned_indices)) as [Hall|Hex].
  - apply Forall_app in Hall as [Hset Hown].
    destruct (arrays_of_accepted set_indices owned_indices fill w Hset Hown)
      as (dout & mask & Hrun & _).
    destruct (_parent self) as [parent|] eqn:Hp;
      [destruct (writeDigitalOutputWithMask parent) as [method|] eqn:Hm|].
    + rewrite (writer_with_capability self _ _ _ _ _ _ _ parent method Hrun Hp Hm).
      exists [(dout, mask)].
      exists (printed dout mask ::
              match method (writes (traced set_indices w)) dout mask with
              | Raise AttributeError => device_not_found
              | _ => []
              end).
      rewrite Hrun. cbn [fst].
      split_and!.
      * by destruct (method _ dout mask) as [b|[]].
      * destruct (method _ dout mask) as [b|[]]; cbn [snd diagnostics traced];
          by rewrite <- !(assoc_L (++)).
      * done.
      * intros d m Hin. apply list_elem_of_singleton in Hin. by simplify_eq.
    + rewrite (writer_without_capability self _ _ _ _ _ _ _ Hrun)
        by (right; by exists parent).
      exists [], (printed dout mask :: device_not_found). cbn [snd diagnostics writes traced].
      split_and!; [by rewrite app_nil_r| by rewrite <- !(assoc_L (++)) | simpl; lia |].
      intros d m Hin. by apply not_elem_of_nil in Hin.
    + rewrite (writer_without_capability self _ _ _ _ _ _ _ Hrun) by by left.
      exists [], (printed dout mask :: device_not_found). cbn [snd diagnostics writes traced].
      split_and!; [by rewrite app_nil_r| by rewrite <- !(assoc_L (++)) | simpl; lia |].
      intros d m Hin. by apply not_elem_of_nil in Hin.
  - rewrite (writer_raises self _ _ _ _ _ _ (dio_arrays_rejected _ _ fill w Hex)).
    exists [], []. cbn [snd diagnostics writes traced].
    split_and!; [by rewrite app_nil_r| done | simpl; lia |].
    intros d m Hin. by apply not_elem_of_nil in Hin.
Qed.

(** X8.  An exception of the robot other than [AttributeError] leaves the
    writer as it is, after the arrays were printed and sent; no error line
    is logged for it. *)
Theorem robot_exception_passes_through
    (self : BaseHands.t) (parent : HrpsysConfigurator)
    (method : list (list Z * list Z) → list Z → list Z → result bool)
    (set_indices owned_indices : list Z) (fill : Z) (w : World)
    (dout mask : list Z) (e : exn) :
  _parent self = Some parent →
  writeDigitalOutputWithMask parent = Some method →
  fst (dio_arrays set_indices owned_indices fill w) = Return (dout, mask) →
  method (writes w) dout mask = Raise e →
  e ≠ AttributeError →
  _dio_writer self set_indices owned_indices fill w
  = (Raise e,
     {| diagnostics := diagnostics w
                       ++ [logdebug "digitalout_indices={}" set_indices; printed dout mask];
        writes := writes w ++ [(dout, mask)] |}).
Proof.
  intros Hp Hm Hfst Hans Hne.
  assert (dio_arrays set_indices owned_indices fill w
          = (Return (dout, mask), traced set_indices w)) as Hrun.
  { rewrite (surjective_pairing (dio_arrays _ _ _ _)).
    by rewrite Hfst, dio_arrays_world. }
  rewrite (writer_with_capability self _ _ _ _ _ _ _ parent method Hrun Hp Hm).
  rewrite traced_writes, Hans. cbn [diagnostics traced].
  rewrite <- !(assoc_L (++)). by destruct e.
Qed.

Lemma robot_exception_passes_through_witness :
  ∃ dout mask,
    fst (dio_arrays [24] [24; 25] DEASSERT empty_world) = Return (dout, mask)
    ∧ _dio_writer (hands_of (stub_parent (Raise (OtherError "CORBA.COMM_FAILURE"))))
        [24] [24; 25] DEASSERT empty_world
      = (Raise (OtherError "CORBA.COMM_FAILURE"),
         {| diagnostics := [logdebug "digitalout_indices={}" [24]; printed dout mask];
            writes := [(dout, mask)] |}).
Proof.
  assert (Forall accepted [24]) as Hset
    by (repeat constructor; unfold accepted; lia).
  assert (Forall accepted [24; 25]) as Hown
    by (repeat constructor; unfold accepted; lia).
  destruct (arrays_of_accepted [24] [24; 25] DEASSERT empty_world Hset Hown)
    as (dout & mask & Hrun & _).
  assert (fst (dio_arrays [24] [24; 25] DEASSERT empty_world) = Return (dout, mask))
    as Hfst by (by rewrite Hrun).
  exists dout, mask. split; [exact Hfst|].
  apply (robot_exception_passes_through
           (hands_of (stub_parent (Raise (OtherError "CORBA.COMM_FAILURE"))))
           (stub_parent (Raise (OtherError "CORBA.COMM_FAILURE")))
           (λ _ _ _, Raise (OtherError "CORBA.COMM_FAILURE"))
           [24] [24; 25] DEASSERT empty_world dout mask
           (OtherError "CORBA.COMM_FAILURE") eq_refl eq_refl Hfst eq_refl).
  discriminate.
Defined.

(** X9.  A parent that is falsy is never written to, even when it has the
    write method: the instance built from it has no [_parent], so a call of
    the writer with accepted indices builds and prints the arrays, logs the
    two error lines, returns [False] and leaves the history of writes as it
    was. *)
Theorem falsy_parent_is_never_written
    (parent : HrpsysConfigurator) (set_indices owned_indices : list Z) (fill : Z)
    (w : World) :
  truth parent = false →
  Forall accepted set_indices →
  Forall accepted owned_indices →
  ∃ dout mask,
    fst (dio_arrays set_indices owned_indices fill w) = Return (dout, mask)
    ∧ (self ← new parent; _dio_writer self set_indices owned_indices fill) w
      = (Return false,
         {| diagnostics := diagnostics w
                           ++ [logdebug "digitalout_indices={}" set_indices;
                               printed dout mask]
                           ++ device_not_found;
            writes := writes w |}).
Proof.
  intros Hfalsy Hset Hown.
  destruct (arrays_of_accepted set_indices owned_indices fill w Hset Hown)
    as (dout & mask & Hrun & _).
  exists dout, mask. split; [by rewrite Hrun|].
  unfold mbind, M_bind at 1. unfold new, __init__. rewrite Hfalsy.
  cbn [negb mret M_ret].
  rewrite (writer_without_capability blank _ _ _ _ _ _ _ Hrun) by by left.
  cbn [diagnostics writes traced]. by rewrite <- !(assoc_L (++)).
Qed.

Lemma falsy_parent_is_never_written_witness :
  truth falsy_robot = false
  ∧ is_Some (writeDigitalOutputWithMask falsy_robot)
  ∧ fst ((self ← new falsy_robot; _dio_writer self [24] [24; 25] DEASSERT) empty_world)
    = Return false
  ∧ writes (snd ((self ← new falsy_robot; _dio_writer self [24] [24; 25] DEASSERT)
                   empty_world)) = [].
Proof.
  assert (Forall accepted [24]) as Hset
    by (repeat constructor; unfold accepted; lia).
  assert (Forall accepted [24; 25]) as Hown
    by (repeat constructor; unfold accepted; lia).
  split; [reflexivity|]. split; [eexists; reflexivity|].
  destruct (falsy_parent_is_never_written falsy_robot [24] [24; 25] DEASSERT
              empty_world eq_refl Hset Hown) as (dout & mask & _ & Hrun).
  rewrite Hrun. split; reflexivity.
Defined.

Lemma writer_only_appends_witness :
  ∃ (handed : list (list Z * list Z)) (ds : list diagnostic),
    writes (snd (_dio_writer (hands_of simulator) [24] [24; 25] DEASSERT empty_world))
    = handed
    ∧ diagnostics (snd (_dio_writer (hands_of simulator) [24] [24; 25] DEASSERT
                          empty_world))
      = logdebug "digitalout_indices={}" [24] :: ds
    ∧ (length handed ≤ 1)%nat.
Proof.
  destruct (writer_only_appends (hands_of simulator) [24] [24; 25] DEASSERT empty_world)
    as (handed & ds & Hw & Hd & Hlen & _).
  exists handed, ds. split; [exact Hw|]. split; [exact Hd|exact Hlen].
Defined.

(** ** More on [init_dio] *)

Lemma init_dio_arrays (w : World) :
  dio_arrays (range 16 32) (range 16 32) _DIO_ASSIGN_ON w
  = (Return (init_dio_dout, init_dio_mask), traced (range 16 32) w).
Proof. rewrite dio_arrays_unfold. reflexivity. Qed.

Lemma init_dio_unfold (self : BaseHands.t) (w : World) :
  init_dio self w
  = match _dio_writer self (range 16 32) (range 16 32) _DIO_ASSIGN_ON w with
    | (Return _, w') => (Return tt, w')
    | (Raise e, w') => (Raise e, w')
    end.
Proof. reflexivity. Qed.

Lemma init_dio_without_capability (self : BaseHands.t) (w : World) :
  capability_missing self init_dio_dout init_dio_mask w →
  ∃ w', _dio_writer self (range 16 32) (range 16 32) _DIO_ASSIGN_ON w = (Return false, w')
        ∧ errors (new_diagnostics w w') = device_not_found
        ∧ (∀ parent, _parent self = Some parent →
                     writeDigitalOutputWithMask parent = None →
                     writes w' = writes w).
Proof.
  intros Hmiss. unfold capability_missing in Hmiss.
  destruct (_parent self) as [parent|] eqn:Hp;
    [destruct (writeDigitalOutputWithMask parent) as [method|] eqn:Hm|].
  - rewrite (writer_with_capability self _ _ _ _ _ _ _ parent method
               (init_dio_arrays w) Hp Hm).
    rewrite traced_writes, Hmiss. eexists. split; [reflexivity|].
    rewrite new_diagnostics_traced. split; [done|].
    intros parent' Hp' Hm'. simplify_eq.
  - rewrite (writer_without_capability self _ _ _ _ _ _ _ (init_dio_arrays w))
      by (right; by exists parent).
    eexists. split; [reflexivity|].
    rewrite new_diagnostics_traced. split; [done|]. intros _ _ _. reflexivity.
  - rewrite (writer_without_capability self _ _ _ _ _ _ _ (init_dio_arrays w))
      by by left.
    eexists. split; [reflexivity|].
    rewrite new_diagnostics_traced. split; [done|]. intros _ _ _. reflexivity.
Qed.

(** X10.  [init_dio] gives its caller no way to tell whether the register
    was written: it returns [None] when the robot accepts the write and when
    it rejects it, with the same diagnostics and the same pair sent; and it
    returns [None] when the capability is missing, where the two error lines
    are logged and a parent without the method is sent nothing. *)
Theorem init_dio_hides_the_outcome (self : BaseHands.t) (w : World) :
  (∀ parent method (b : bool),
      _parent self = Some parent →
      writeDigitalOutputWithMask parent = Some method →
      method (writes w) init_dio_dout init_dio_mask = Return b →
      init_dio self w
      = (Return tt,
         {| diagnostics := diagnostics w
                           ++ [logdebug "digitalout_indices={}" (range 16 32);
                               printed init_dio_dout init_dio_mask];
            writes := writes w ++ [(init_dio_dout, init_dio_mask)] |}))
  ∧ (capability_missing self init_dio_dout init_dio_mask w →
     fst (init_dio self w) = Return tt
     ∧ errors (new_diagnostics w (snd (init_dio self w))) = device_not_found
     ∧ (∀ parent, _parent self = Some parent →
                  writeDigitalOutputWithMask parent = None →
                  writes (snd (init_dio self w)) = writes w)).
Proof.
  split.
  - intros parent method b Hp Hm Hans.
    rewrite init_dio_unfold.
    rewrite (writer_with_capability self _ _ _ _ _ _ _ parent method
               (init_dio_arrays w) Hp Hm).
    rewrite traced_writes, Hans. cbn [diagnostics traced].
    by rewrite <- !(assoc_L (++)).
  - intros Hmiss. rewrite init_dio_unfold.
    destruct (init_dio_without_capability self w Hmiss)
      as (w' & -> & Herr & Hwrites).
    cbn [fst snd]. split_and!; [done|done|exact Hwrites].
Qed.

Lemma init_dio_hides_the_outcome_witness :
  init_dio (hands_of (stub_parent (Return false))) empty_world
  = init_dio (hands_of (stub_parent (Return true))) empty_world
  ∧ fst (init_dio (hands_of (stub_parent (Return false))) empty_world) = Return tt
  ∧ fst (init_dio (hands_of simulator) empty_world) = Return tt.
Proof.
  destruct (init_dio_hides_the_outcome (hands_of (stub_parent (Return false)))
              empty_world) as [Hno _].
  destruct (init_dio_hides_the_outcome (hands_of (stub_parent (Return true)))
              empty_world) as [Hyes _].
  destruct (init_dio_hides_the_outcome (hands_of simulator) empty_world) as [_ Hmiss].
  rewrite (Hno (stub_parent (Return false)) _ false eq_refl eq_refl eq_refl).
  rewrite (Hyes (stub_parent (Return true)) _ true eq_refl eq_refl eq_refl).
  split; [reflexivity|]. split; [reflexivity|].
  destruct (Hmiss I) as [Hret _]. exact Hret.
Defined.

(** ** The legend *)

(** X11.  The legend printed under the arrays has one item per channel, the
    last decimal digit of the channel's 1-based number. *)
Theorem legend_is_last_digit_of_channel (i : Z) :
  in_register i →
  length print_index = 32%nat
  ∧ channel print_index i = Some (Z.modulo i 10).
Proof.
  intros Hi. split; [reflexivity|].
  assert (print_index = (λ j, Z.modulo j 10) <$> seqZ 1 32) as ->
    by (vm_compute; reflexivity).
  exact (channel_of_map (λ j, Z.modulo j 10) i Hi).
Qed.

Lemma legend_is_last_digit_of_channel_witness :
  in_register 30
  ∧ channel print_index 30 = Some 0
  ∧ channel print_index 17 = Some 7.
Proof.
  assert (in_register 30) as H30 by (unfold in_register; lia).
  assert (in_register 17) as H17 by (unfold in_register; lia).
  split; [exact H30|]. split.
  - exact (proj2 (legend_is_last_digit_of_channel 30 H30)).
  - exact (proj2 (legend_is_last_digit_of_channel 17 H17)).
Defined.

(** ** Masks of joined requests *)

(** X12.  Owning two lists of accepted indices in one call marks exactly the
    channels that a call for the first list or a call for the second list
    marks; the output is the same in all three calls. *)
Theorem mask_of_joined_lists
    (set_indices owned_1 owned_2 : list Z) (fill : Z) (w : World) :
  Forall accepted set_indices →
  Forall accepted owned_1 →
  Forall accepted owned_2 →
  ∃ dout mask mask_1 mask_2,
    fst (dio_arrays set_indices (owned_1 ++ owned_2) fill w) = Return (dout, mask)
    ∧ fst (dio_arrays set_indices owned_1 fill w) = Return (dout, mask_1)
    ∧ fst (dio_arrays set_indices owned_2 fill w) = Return (dout, mask_2)
    ∧ ∀ j, in_register j →
        (channel mask j = Some OWNED
         ↔ channel mask_1 j = Some OWNED ∨ channel mask_2 j = Some OWNED).
Proof.
  intros Hset H1 H2.
  assert (Forall accepted (owned_1 ++ owned_2)) as H12 by (by apply Forall_app).
  destruct (arrays_of_accepted set_indices (owned_1 ++ owned_2) fill w Hset H12)
    as (dout & mask & -> & -> & ->).
  destruct (arrays_of_accepted set_indices owned_1 fill w Hset H1)
    as (dout1 & mask1 & -> & -> & ->).
  destruct (arrays_of_accepted set_indices owned_2 fill w Hset H2)
    as (dout2 & mask2 & -> & -> & ->).
  eexists _, _, _, _. split_and!; [reflexivity..|].
  intros j Hj. rewrite !channel_of_map by done. rewrite fmap_app.
  destruct (decide (j ∈ addressed <$> owned_1)) as [Hj1|Hj1];
    destruct (decide (j ∈ addressed <$> owned_2)) as [Hj2|Hj2].
  - rewrite decide_True by (apply elem_of_app; by left). tauto.
  - rewrite decide_True by (apply elem_of_app; by left). tauto.
  - rewrite decide_True by (apply elem_of_app; by right). tauto.
  - rewrite decide_False by (rewrite elem_of_app; tauto).
    split; [intros H; discriminate H | intros [H|H]; discriminate H].
Qed.

Lemma mask_of_joined_lists_witness :
  ∃ dout mask mask_1 mask_2,
    fst (dio_arrays [] ([17; 18] ++ [18; 0]) DEASSERT empty_world) = Return (dout, mask)
    ∧ fst (dio_arrays [] [17; 18] DEASSERT empty_world) = Return (dout, mask_1)
    ∧ fst (dio_arrays [] [18; 0] DEASSERT empty_world) = Return (dout, mask_2)
    ∧ (channel mask 32 = Some OWNED
       ↔ channel mask_1 32 = Some OWNED ∨ channel mask_2 32 = Some OWNED).
Proof.
  assert (Forall accepted [17; 18]) as H1
    by (repeat constructor; unfold accepted; lia).
  assert (Forall accepted [18; 0]) as H2
    by (repeat constructor; unfold accepted; lia).
  destruct (mask_of_joined_lists [] [17; 18] [18; 0] DEASSERT empty_world
              (Forall_nil_2 accepted) H1 H2)
    as (dout & mask & mask_1 & mask_2 & Hrun & Hrun1 & Hrun2 & Hch).
  exists dout, mask, mask_1, mask_2.
  split; [exact Hrun|]. split; [exact Hrun1|]. split; [exact Hrun2|].
  apply Hch. unfold in_register. lia.
Defined.

(** ** Construction and writing together *)

(** X13.  An instance built from a truthy parent that has the write method
    writes to that parent: with accepted indices, constructing and then
    calling the writer sends the parent the one pair of arrays built, and a
    boolean answer of the parent is the writer's result, with no error line
    logged. *)
Theorem constructed_hands_write_to_parent
    (parent : HrpsysConfigurator)
    (method : list (list Z * list Z) → list Z → list Z → result bool)
    (set_indices owned_indices : list Z) (fill : Z) (w : World)
    (dout mask : list Z) (b : bool) :
  truth parent = true →
  writeDigitalOutputWithMask parent = Some method →
  fst (dio_arrays set_indices owned_indices fill w) = Return (dout, mask) →
  method (writes w) dout mask = Return b →
  (self ← new parent; _dio_writer self set_indices owned_indices fill) w
  = (Return b,
     {| diagnostics := diagnostics w
                       ++ [logdebug "digitalout_indices={}" set_indices; printed dout mask];
        writes := writes w ++ [(dout, mask)] |}).
Proof.
  intros Htruthy Hm Hfst Hans.
  assert (dio_arrays set_indices owned_indices fill w
          = (Return (dout, mask), traced set_indices w)) as Hrun.
  { rewrite (surjective_pairing (dio_arrays _ _ _ _)).
    by rewrite Hfst, dio_arrays_world. }
  unfold mbind, M_bind at 1. unfold new, __init__. rewrite Htruthy.
  cbn [negb mret M_ret].
  rewrite (writer_with_capability {| _parent := Some parent |} _ _ _ _ _ _ _
             parent method Hrun eq_refl Hm).
  rewrite traced_writes, Hans. cbn [diagnostics traced].
  by rewrite <- !(assoc_L (++)).
Qed.

Lemma constructed_hands_write_to_parent_witness :
  ∃ dout mask,
    fst (dio_arrays [24] [24; 25] DEASSERT empty_world) = Return (dout, mask)
    ∧ (self ← new (stub_parent (Return false)); _dio_writer self [24] [24; 25] DEASSERT)
        empty_world
      = (Return false,
         {| diagnostics := [logdebug "digitalout_indices={}" [24]; printed dout mask];
            writes := [(dout, mask)] |}).
Proof.
  assert (Forall accepted [24]) as Hset
    by (repeat constructor; unfold accepted; lia).
  assert (Forall accepted [24; 25]) as Hown
    by (repeat constructor; unfold accepted; lia).
  destruct (arrays_of_accepted [24] [24; 25] DEASSERT empty_world Hset Hown)
    as (dout & mask & Hrun & _).
  assert (fst (dio_arrays [24] [24; 25] DEASSERT empty_world) = Return (dout, mask))
    as Hfst by (by rewrite Hrun).
  exists dout, mask. split; [exact Hfst|].
  exact (constructed_hands_write_to_parent (stub_parent (Return false))
           (λ _ _ _, Return false) [24] [24; 25] DEASSERT empty_world dout mask false
           eq_refl eq_refl Hfst eq_refl).
Defined.
